(** * Verification of the [pull] command of the Vercel CLI

    Source: [packages/cli/src/commands/pull.ts].

    The command parses its arguments, resolves (or sets up) the link
    between the working directory and a remote project, downloads the
    environment variables of the project into four local files, and, when
    every download succeeded, writes the project settings.

    The development has three parts:
    - [Path]: the POSIX [join] of Node's [path] module, which the command
      uses to build its destination paths;
    - [Pull]: the command itself, as a program of a small state monad
      that threads the shared client and records every call to a
      collaborator;
    - the properties of the command. *)

From Stdlib Require Import String Ascii List ZArith Bool Lia.
Import ListNotations.
Open Scope string_scope.

(* ------------------------------------------------------------------ *)
(** ** Strings *)

Module Str.

(** A string holds no path separator. *)
Fixpoint no_sep (s : string) : bool :=
  match s with
  | EmptyString => true
  | String c r => negb (Ascii.eqb c "/") && no_sep r
  end.

(** The segments of a string between its separators; [split] never
    returns the empty list, and [String.concat "/"] undoes it. *)
Fixpoint split (s : string) : list string :=
  match s with
  | EmptyString => [EmptyString]
  | String c r =>
      if Ascii.eqb c "/" then EmptyString :: split r
      else match split r with
           | [] => [String c EmptyString]
           | h :: t => String c h :: t
           end
  end.

Definition starts_with_sep (s : string) : bool :=
  match s with
  | String c _ => Ascii.eqb c "/"
  | EmptyString => false
  end.

Fixpoint ends_with_sep (s : string) : bool :=
  match s with
  | EmptyString => false
  | String c EmptyString => Ascii.eqb c "/"
  | String _ r => ends_with_sep r
  end.

Definition nonempty (s : string) : bool := negb (String.eqb s "").

(** The segments of a string that are not empty. *)
Definition segments (s : string) : list string := filter nonempty (split s).

End Str.

(* ------------------------------------------------------------------ *)
(** ** Node's [path.join] (POSIX)

    [pull.ts] imports [join] from Node's [path] module.  The module is
    not part of the repository; the definitions below follow Node's
    [lib/path.js] ([posix.join], [posix.normalize], [normalizeString]).
    Node scans the characters of the path and keeps the result as a
    string; here the path is cut into its segments first and the result
    is kept as the list of its segments, last segment first. *)

Module Path.
Import Str.

(** One segment of [normalizeString]: an empty segment and ["."] change
    nothing; [".."] removes the last segment of the result, unless there
    is none or it is [".."] itself, in which case [".."] is appended when
    the path may climb above its root; any other segment is appended. *)
Definition step (allowAboveRoot : bool) (res : list string) (seg : string)
  : list string :=
  if String.eqb seg "" then res
  else if String.eqb seg "." then res
  else if String.eqb seg ".." then
    match res with
    | top :: rest =>
        if String.eqb top ".." then
          (if allowAboveRoot then ".." :: res else res)
        else rest
    | [] => if allowAboveRoot then [".."] else []
    end
  else seg :: res.

Definition normalizeSegments (allowAboveRoot : bool) (segs : list string)
  : list string :=
  fold_left (step allowAboveRoot) segs [].

Definition normalizeString (path : string) (allowAboveRoot : bool) : string :=
  String.concat "/" (rev (normalizeSegments allowAboveRoot (split path))).

Definition normalize (path : string) : string :=
  if String.eqb path "" then "."
  else
    let isAbsolute := starts_with_sep path in
    let trailingSeparator := ends_with_sep path in
    let p := normalizeString path (negb isAbsolute) in
    if String.eqb p "" then
      (if isAbsolute then "/" else if trailingSeparator then "./" else ".")
    else
      let p := if trailingSeparator then p ++ "/" else p in
      if isAbsolute then "/" ++ p else p.

Definition join (args : list string) : string :=
  match filter nonempty args with
  | [] => "."
  | parts => normalize (String.concat "/" parts)
  end.

(** *** Measures of a result of [normalizeString]

    They serve to tell apart the results of two paths. *)

(** A segment that [step] appends as it is. *)
Definition plain (seg : string) : bool :=
  negb (String.eqb seg "") && negb (String.eqb seg ".")
  && negb (String.eqb seg "..").

(** A segment a result can hold: not empty, not ["."], no separator. *)
Definition kept (seg : string) : bool :=
  no_sep seg && negb (String.eqb seg "") && negb (String.eqb seg ".").

(** How deep a result is below where it started: [".."] counts for -1. *)
Fixpoint depth (res : list string) : Z :=
  match res with
  | [] => 0%Z
  | seg :: rest => ((if String.eqb seg ".." then -1 else 1) + depth rest)%Z
  end.

(** A result without [".."]: every result of an absolute path. *)
Definition no_dots (res : list string) : Prop :=
  Forall (fun x => String.eqb x ".." = false) res.

(** A path in normal form already: absolute, with plain segments only,
    at least one, and no separator at its end. *)
Definition cleanDir (path : string) : bool :=
  match split path with
  | "" :: seg :: segs => forallb plain (seg :: segs)
  | _ => false
  end.

(** A plain file name. *)
Definition cleanName (name : string) : bool := no_sep name && plain name.

(** The segments of the working directory in a joined path; an empty
    working directory is left out by [join]. *)
Definition dirSegments (cwd : string) : list string :=
  if String.eqb cwd "" then [] else split cwd.

End Path.

(* ------------------------------------------------------------------ *)
(** ** The command *)

Module Pull.
Local Open Scope Z_scope.

(** The enumeration [ProjectEnvTarget] of [../types], with the three
    targets [pullAllEnvFiles] names. *)
Inductive ProjectEnvTarget : Type :=
  | Production
  | Preview
  | Development.

(** An organisation, with the two fields the command reads: [org.type]
    and [org.id]. *)
Record Org : Type := mkOrg {
  org_type : string;
  org_id : string
}.

(** The arguments as [getArgs] returns them: the fields the command
    reads.  A flag that was not given is [undefined], here [None]. *)
Record Argv : Type := mkArgv {
  arg_help : option bool;        (* argv['--help'] *)
  arg_yes : option bool;         (* argv['--yes'] *)
  arg_env : option string;       (* argv['--env'] *)
  arg_positional : list string   (* argv._ *)
}.

(** The shared client: its command line and [client.config.currentTeam]
    ([undefined] is [None]). *)
Record Client : Type := mkClient {
  argv : list string;
  currentTeam : option string
}.

(** JavaScript's [x || y] on numbers and on strings that may be
    [undefined], [Boolean(x)] and [x ?? y]. *)
Definition or_number (x y : Z) : Z := if Z.eqb x 0 then y else x.

Definition or_string (x : option string) (y : string) : string :=
  match x with
  | Some s => if String.eqb s "" then y else s
  | None => y
  end.

Definition truthy (x : option bool) : bool :=
  match x with
  | Some b => b
  | None => false
  end.

Definition nullish_or (x : option string) (y : string) : string :=
  match x with
  | Some s => s
  | None => y
  end.

Section WithProject.

(** The type [Project] of [../types]; the command only passes it on. *)
Variable Project : Type.

(** The result of [getLinkedProject] and of [setupAndLink]. *)
Inductive LinkStatus : Type :=
  | linked (org : Org) (project : Project)
  | not_linked
  | error (exitCode : Z).

(** Modelled from the spec: the collaborators [getArgs]
    ([../util/get-args]), [getLinkedProject] ([../util/projects/link]),
    [setupAndLink] ([../util/link/setup-and-link]) and [envPull]
    ([./env/pull]), which [pull.ts] imports.  Each is a function of its
    arguments and of the client it is given, and returns what the spec
    says of it: a link status ([linked], [not_linked], or [error] with an
    exit code) or an exit code.  As the spec requires of them, none
    changes the shared client.  [getArgs] returns [None] where the
    original throws; [process_cwd] is what [process.cwd()] returns. *)
Record Collaborators : Type := mkCollaborators {
  getArgs : list string -> option Argv;
  process_cwd : string;
  getLinkedProject : Client -> string -> LinkStatus;
  setupAndLink : Client -> string -> bool -> LinkStatus;
  envPull : Client -> Project -> ProjectEnvTarget -> Argv -> list string -> Z
}.

(** What a run does: its calls to the collaborators, in order and each
    with what it returned, and its one assignment to the shared client.
    A call of [envPull] is recorded with the team of the client at the
    time of the call. *)
Inductive Event : Type :=
  | CallGetArgs (args : list string) (result : option Argv)
  | CallHelp
  | CallHandleError
  | CallGetLinkedProject (cwd : string) (result : LinkStatus)
  | CallSetupAndLink (cwd : string) (autoConfirm : bool)
                     (successEmoji setupMsg : string) (result : LinkStatus)
  | SetCurrentTeam (team : option string)
  | CallEnvPull (project : Project) (target : ProjectEnvTarget)
                (args : Argv) (paths : list string) (team : option string)
                (exitCode : Z)
  | CallWriteProjectSettings (cwd : string) (project : Project) (org : Org)
  | CallPrint.

Record State : Type := mkState {
  client : Client;
  trace : list Event
}.

(** The state monad of the command.  The command is asynchronous on one
    thread of control; an [await] is the sequencing of the monad. *)
Definition M (A : Type) : Type := State -> A * State.

Definition ret {A : Type} (a : A) : M A := fun st => (a, st).

Definition bind {A B : Type} (m : M A) (k : A -> M B) : M B :=
  fun st => let (a, st') := m st in k a st'.

Notation "x <- m ;; k" := (bind m (fun x => k))
  (at level 61, m at next level, right associativity).
Notation "m ;; k" := (bind m (fun _ => k))
  (at level 61, right associativity).

Definition getClient : M Client := fun st => (client st, st).

Definition emit (e : Event) : M unit :=
  fun st => (tt, mkState (client st) (trace st ++ [e])).

Definition setCurrentTeam (team : option string) : M unit :=
  fun st =>
    (tt, mkState (mkClient (argv (client st)) team)
                 (trace st ++ [SetCurrentTeam team])).

Variable W : Collaborators.

(** [processArgs]: the arguments after the first two, through [getArgs]. *)
Definition processArgs : M (option Argv) :=
  c <- getClient ;;
  let args := skipn 2 (argv c) in
  let result := getArgs W args in
  emit (CallGetArgs args result) ;;
  ret result.

(** [parseArgs] returns the arguments or a number. *)
Inductive ArgvOrNumber : Type :=
  | IsArgv (a : Argv)
  | ArgvNumber (n : Z).

Definition parseArgs : M ArgvOrNumber :=
  r <- processArgs ;;
  match r with
  | Some a =>
      if truthy (arg_help a) then
        emit CallHelp ;;
        ret (ArgvNumber 2)
      else ret (IsArgv a)
  | None =>
      emit CallHandleError ;;
      ret (ArgvNumber 1)
  end.

(** [ensureLink] returns a [LinkResult] or a number. *)
Inductive LinkResultOrNumber : Type :=
  | IsLink (org : Org) (project : Project)
  | LinkNumber (n : Z).

Definition call_getLinkedProject (cwd : string) : M LinkStatus :=
  c <- getClient ;;
  let result := getLinkedProject W c cwd in
  emit (CallGetLinkedProject cwd result) ;;
  ret result.

Definition call_setupAndLink (cwd : string) (yes : bool) : M LinkStatus :=
  c <- getClient ;;
  let result := setupAndLink W c cwd yes in
  emit (CallSetupAndLink cwd yes "link" "Set up" result) ;;
  ret result.

(** The two tests that follow the first one in [ensureLink] are written
    once in the source; the status that reaches them is [link] of the
    lookup, or of the setup when the lookup said [not_linked]. *)
Definition ensureLink (cwd : string) (yes : bool) : M LinkResultOrNumber :=
  link <- call_getLinkedProject cwd ;;
  match link with
  | not_linked =>
      link <- call_setupAndLink cwd yes ;;
      match link with
      | not_linked => ret (LinkNumber 0)
      | error exitCode => ret (LinkNumber exitCode)
      | linked org project => ret (IsLink org project)
      end
  | error exitCode => ret (LinkNumber exitCode)
  | linked org project => ret (IsLink org project)
  end.

Definition call_envPull (project : Project) (target : ProjectEnvTarget)
    (args : Argv) (paths : list string) : M Z :=
  c <- getClient ;;
  let exitCode := envPull W c project target args paths in
  emit (CallEnvPull project target args paths (currentTeam c) exitCode) ;;
  ret exitCode.

(** The value [a || b || c || d || 0] that [pullAllEnvFiles] returns. *)
Definition aggregate (a b c d : Z) : Z :=
  or_number (or_number (or_number (or_number a b) c) d) 0.

(** [pullAllEnvFiles]: the four calls are made in this order and their
    results are taken by position from [Promise.all]. *)
Definition pullAllEnvFiles (envFileRoot : string) (project : Project)
    (args : Argv) (cwd : string) : M Z :=
  pullDeprecatedDevResultCode <-
    call_envPull project Development args [Path.join [cwd; envFileRoot]] ;;
  let devEnvFile := envFileRoot ++ ".development.local" in
  pullDevResultCode <-
    call_envPull project Development args
      [Path.join [cwd; ".vercel"; devEnvFile]] ;;
  let previewEnvFile := envFileRoot ++ ".preview.local" in
  pullPreviewResultCode <-
    call_envPull project Preview args
      [Path.join [cwd; ".vercel"; previewEnvFile]] ;;
  let prodEnvFile := envFileRoot ++ ".production.local" in
  pullProdResultCode <-
    call_envPull project Production args
      [Path.join [cwd; ".vercel"; prodEnvFile]] ;;
  ret (aggregate pullDeprecatedDevResultCode pullDevResultCode
                 pullPreviewResultCode pullProdResultCode).

(** The three values [main] computes from the arguments. *)
Definition main_cwd (args : Argv) : string :=
  or_string (nth_error (arg_positional args) 1) (process_cwd W).

Definition main_yes (args : Argv) : bool := truthy (arg_yes args).

Definition main_env (args : Argv) : string :=
  nullish_or (arg_env args) ".env".

Definition main : M Z :=
  parsed <- parseArgs ;;
  match parsed with
  | ArgvNumber n => ret n
  | IsArgv args =>
      let cwd := main_cwd args in
      let yes := main_yes args in
      let env := main_env args in
      link <- ensureLink cwd yes ;;
      match link with
      | LinkNumber n => ret n
      | IsLink org project =>
          setCurrentTeam (if String.eqb (org_type org) "team"
                          then Some (org_id org) else None) ;;
          pullResultCode <- pullAllEnvFiles env project args cwd ;;
          if negb (Z.eqb pullResultCode 0) then ret pullResultCode
          else
            emit (CallWriteProjectSettings cwd project org) ;;
            emit CallPrint ;;
            ret 0
      end
  end.

(** A run of the command from a client, with an empty record. *)
Definition run (c : Client) : Z * State := main (mkState c []).

Definition exitCodeOf (c : Client) : Z := fst (run c).

Definition traceOf (c : Client) : list Event := trace (snd (run c)).

End WithProject.

Arguments linked {Project} org project.
Arguments not_linked {Project}.
Arguments error {Project} exitCode.
Arguments CallGetArgs {Project} args result.
Arguments CallHelp {Project}.
Arguments CallHandleError {Project}.
Arguments CallGetLinkedProject {Project} cwd result.
Arguments CallSetupAndLink {Project} cwd autoConfirm successEmoji setupMsg result.
Arguments SetCurrentTeam {Project} team.
Arguments CallEnvPull {Project} project target args paths team exitCode.
Arguments CallWriteProjectSettings {Project} cwd project org.
Arguments CallPrint {Project}.
Arguments IsLink {Project} org project.
Arguments LinkNumber {Project} n.
Arguments mkState {Project} client trace.
Arguments client {Project} s.
Arguments trace {Project} s.
Arguments getArgs {Project} c _.
Arguments process_cwd {Project} c.
Arguments getLinkedProject {Project} c _ _.
Arguments setupAndLink {Project} c _ _ _.
Arguments envPull {Project} c _ _ _ _ _.
Arguments ensureLink {Project} W cwd yes _.
Arguments parseArgs {Project} W _.
Arguments pullAllEnvFiles {Project} W envFileRoot project args cwd _.
Arguments main {Project} W _.
Arguments main_cwd {Project} W args.
Arguments run {Project} W c.
Arguments exitCodeOf {Project} W c.
Arguments traceOf {Project} W c.

(** *** What the record of a run shows *)

Section Records.
Context {Project : Type}.

Definition isEnvPull (e : Event Project) : bool :=
  match e with CallEnvPull _ _ _ _ _ _ => true | _ => false end.

Definition isWrite (e : Event Project) : bool :=
  match e with CallWriteProjectSettings _ _ _ => true | _ => false end.

Definition isSetup (e : Event Project) : bool :=
  match e with CallSetupAndLink _ _ _ _ _ => true | _ => false end.

Definition isLookup (e : Event Project) : bool :=
  match e with CallGetLinkedProject _ _ => true | _ => false end.

Definition isSetTeam (e : Event Project) : bool :=
  match e with SetCurrentTeam _ => true | _ => false end.

(** The exit codes of the downloads, in the order of their calls. *)
Definition syncResults (tr : list (Event Project)) : list Z :=
  flat_map (fun e => match e with
                     | CallEnvPull _ _ _ _ _ code => [code]
                     | _ => []
                     end) tr.

(** The downloads as (target, destination paths), in the order of their
    calls. *)
Definition syncTasks (tr : list (Event Project))
  : list (ProjectEnvTarget * list string) :=
  flat_map (fun e => match e with
                     | CallEnvPull _ target _ paths _ _ => [(target, paths)]
                     | _ => []
                     end) tr.

(** Every destination path of every download. *)
Definition destinations (tr : list (Event Project)) : list string :=
  flat_map snd (syncTasks tr).

(** The teams the downloads saw in the shared client. *)
Definition syncTeams (tr : list (Event Project)) : list (option string) :=
  flat_map (fun e => match e with
                     | CallEnvPull _ _ _ _ team _ => [team]
                     | _ => []
                     end) tr.

Definition wrote (tr : list (Event Project)) : bool := existsb isWrite tr.

Definition dispatched (tr : list (Event Project)) : bool :=
  existsb isEnvPull tr.

Definition setupInvoked (tr : list (Event Project)) : bool :=
  existsb isSetup tr.

Definition linkLookedUp (tr : list (Event Project)) : bool :=
  existsb isLookup tr.

(** The two ways the arguments stop a run: the exit code and the call
    made after [getArgs]. *)
Inductive ArgsStop : option Argv -> Z -> Event Project -> Prop :=
  | HelpRequested (a : Argv) :
      truthy (arg_help a) = true -> ArgsStop (Some a) 2 CallHelp
  | ParseFailed : ArgsStop None 1 CallHandleError.

(** The two ways link resolution meets an error: in the lookup, or in
    the setup that follows a lookup that found no link. *)
Inductive LinkFails (W : Collaborators Project) (c : Client) (cwd : string)
    (yes : bool) (exitCode : Z) : Prop :=
  | LookupFails :
      getLinkedProject W c cwd = error exitCode ->
      LinkFails W c cwd yes exitCode
  | SetupFails :
      getLinkedProject W c cwd = not_linked ->
      setupAndLink W c cwd yes = error exitCode ->
      LinkFails W c cwd yes exitCode.

(** The team [main] assigns for an organisation. *)
Definition teamOf (org : Org) : option string :=
  if String.eqb (org_type org) "team" then Some (org_id org) else None.

End Records.

(** The first nonzero code of a list, and 0 when there is none. *)
Definition firstNonzero (codes : list Z) : Z :=
  match find (fun x => negb (Z.eqb x 0)) codes with
  | Some x => x
  | None => 0
  end.

End Pull.

(** *** Concrete collaborators, for the examples *)

Module Examples.
Import Pull.
Local Open Scope Z_scope.

(** Collaborators that answer the same whatever they are asked; projects
    are named by a string. *)
Definition world (parsed : option Argv) (lookup setup : LinkStatus string)
    (codes : list string -> Z) : Collaborators string :=
  mkCollaborators string
    (fun _ => parsed)
    "/home/u/app"
    (fun _ _ => lookup)
    (fun _ _ _ => setup)
    (fun _ _ _ _ paths => codes paths).

Definition plainArgs : Argv := mkArgv None None None ["pull"].

Definition helpArgs : Argv := mkArgv (Some true) None None ["pull"].

Definition customArgs : Argv := mkArgv None None (Some "custom") ["pull"].

Definition emptyEnvArgs : Argv := mkArgv None None (Some "") ["pull"].

Definition theClient : Client := mkClient ["node"; "vercel"; "pull"] None.

Definition teamOrg : Org := mkOrg "team" "team_T1".

Definition userOrg : Org := mkOrg "user" "user_U1".

(** The development download into [.vercel] fails with code 7. *)
Definition devFails (paths : list string) : Z :=
  match paths with
  | [p] => if String.eqb p "/home/u/app/.vercel/.env.development.local"
           then 7 else 0
  | _ => 0
  end.

Definition allSucceed (paths : list string) : Z := 0.

End Examples.

(** *** More of what the record of a run shows *)

Module Observe.
Import Pull.
Local Open Scope Z_scope.

Section Events.
Context {Project : Type}.


(** A download or a write made for the given link: a download has the
    project and the arguments, a write has the directory, the project
    and the organisation.  Other calls are not concerned. *)
Definition madeFor (cwd : string) (a : Argv) (org : Org) (project : Project)
    (e : Event Project) : Prop :=
  match e with
  | CallEnvPull p _ args _ _ _ => p = project /\ args = a
  | CallWriteProjectSettings d p o => d = cwd /\ p = project /\ o = org
  | _ => True
  end.

(** The exit codes of the errors that the lookup and the setup
    returned. *)
Definition linkErrors (tr : list (Event Project)) : list Z :=
  flat_map (fun e => match e with
                     | CallGetLinkedProject _ (error code) => [code]
                     | CallSetupAndLink _ _ _ _ (error code) => [code]
                     | _ => []
                     end) tr.

End Events.



(** Arguments with [--env ../shared]. *)
Definition parentEnvArgs : Argv :=
  mkArgv None None (Some "../shared") ["pull"].

End Observe.

(* ------------------------------------------------------------------ *)
(** ** Facts about strings and their segments *)

Module StrFacts.
Import Str.

Lemma append_nil_r (s : string) : s ++ "" = s.
Proof. induction s as [|c s IH]; cbn; [ | rewrite IH ]; reflexivity. Qed.

Lemma append_assoc (a b c : string) : (a ++ b) ++ c = a ++ (b ++ c).
Proof. induction a as [|x a IH]; cbn; [ | rewrite IH ]; reflexivity. Qed.

Lemma length_append (a b : string) :
  String.length (a ++ b) = String.length a + String.length b.
Proof. induction a as [|x a IH]; cbn; [ | rewrite IH ]; reflexivity. Qed.

Lemma append_inv_head (a b c : string) : a ++ b = a ++ c -> b = c.
Proof.
  induction a as [|x a IH]; cbn; intros H; [ exact H | ].
  injection H as H. apply IH, H.
Qed.

Lemma append_longer (a b : string) : b <> "" -> a <> a ++ b.
Proof.
  intros Hb H. apply (f_equal String.length) in H.
  rewrite length_append in H. destruct b; [ congruence | cbn in H; lia ].
Qed.

Lemma no_sep_append (a b : string) :
  no_sep (a ++ b) = no_sep a && no_sep b.
Proof.
  induction a as [|x a IH]; cbn; [ reflexivity | ].
  rewrite IH, andb_assoc. reflexivity.
Qed.

Lemma split_not_nil (s : string) : split s <> [].
Proof.
  induction s as [|c s IH]; cbn; [ discriminate | ].
  destruct (Ascii.eqb c "/"); [ discriminate | ].
  destruct (split s); discriminate.
Qed.

(** A string without separator is its own single segment. *)
Lemma split_no_sep (s : string) : no_sep s = true -> split s = [s].
Proof.
  induction s as [|c s IH]; cbn; [ reflexivity | ].
  destruct (Ascii.eqb c "/"); cbn; [ discriminate | ].
  intros H. rewrite (IH H). reflexivity.
Qed.

(** No segment holds a separator. *)
Lemma split_segments_no_sep (s : string) :
  Forall (fun seg => no_sep seg = true) (split s).
Proof.
  induction s as [|c s IH]; cbn; [ repeat constructor | ].
  destruct (Ascii.eqb c "/") eqn:E; [ constructor; [ reflexivity | exact IH ] | ].
  destruct (split s) as [|h t]; [ constructor; [ cbn; rewrite E | ]; auto | ].
  inversion IH as [|? ? Hh Ht]; subst.
  constructor; [ cbn; rewrite E, Hh; reflexivity | exact Ht ].
Qed.

(** The segments of two strings put together with a separator. *)
Lemma split_append_sep (a b : string) :
  split (a ++ String "/" b) = (split a ++ split b)%list.
Proof.
  induction a as [|c a IH]; cbn [append split]; [ reflexivity | ].
  destruct (Ascii.eqb c "/"); rewrite IH; [ reflexivity | ].
  destruct (split a) as [|h t] eqn:E; [ | reflexivity ].
  exfalso. exact (split_not_nil a E).
Qed.

(** Text without separator that follows a string extends its last
    segment. *)
Lemma split_append_no_sep (a b : string) (init : list string)
    (lst : string) :
  no_sep b = true ->
  split a = (init ++ [lst])%list ->
  split (a ++ b) = (init ++ [(lst ++ b)%string])%list.
Proof.
  intros Hb. revert init lst.
  induction a as [|c a IH]; intros init lst; cbn [append split].
  - intros H. destruct init as [|x [|y init]]; try discriminate.
    injection H as <-. cbn. apply split_no_sep, Hb.
  - destruct (Ascii.eqb c "/").
    + destruct init as [|x init]; cbn [app].
      * intros H. injection H as _ H. exfalso. exact (split_not_nil a H).
      * intros H. injection H as <- H. rewrite (IH _ _ H). reflexivity.
    + destruct (exists_last (split_not_nil a)) as (i' & l' & E).
      rewrite E, (IH _ _ E).
      destruct i' as [|x i']; cbn [app]; intros H.
      * destruct init as [|y [|z init]]; try discriminate.
        injection H as <-. reflexivity.
      * destruct init as [|y init]; cbn [app] in H.
        -- destruct i'; discriminate.
        -- injection H as <- H. apply app_inj_tail in H as [-> ->].
           reflexivity.
Qed.

(** [split] undoes [String.concat "/"]. *)
Lemma split_concat (l : list string) :
  l <> [] ->
  Forall (fun seg => no_sep seg = true) l ->
  split (String.concat "/" l) = l.
Proof.
  induction l as [|x l IH]; [ congruence | ].
  intros _ H. inversion H as [|? ? Hx Hl]; subst.
  destruct l as [|y l]; cbn [String.concat append].
  - apply split_no_sep, Hx.
  - rewrite split_append_sep, (split_no_sep _ Hx).
    cbn [app]. f_equal. apply IH; [ discriminate | exact Hl ].
Qed.

Lemma concat_app (a b : list string) :
  a <> [] -> b <> [] ->
  String.concat "/" (a ++ b)
  = String.concat "/" a ++ String "/" (String.concat "/" b).
Proof.
  intros Ha Hb. induction a as [|x a IH]; [ congruence | ].
  destruct a as [|y a].
  - cbn. destruct b; [ congruence | reflexivity ].
  - change ((x :: y :: a) ++ b)%list with (x :: (y :: a) ++ b)%list.
    cbn [String.concat app append]. cbn [String.concat app append] in IH.
    rewrite IH by discriminate.
    rewrite !append_assoc. reflexivity.
Qed.

Lemma starts_with_sep_append (a b : string) :
  a <> "" -> starts_with_sep (a ++ b) = starts_with_sep a.
Proof. destruct a; [ congruence | reflexivity ]. Qed.

Lemma ends_with_sep_append (a b : string) :
  b <> "" -> ends_with_sep (a ++ b) = ends_with_sep b.
Proof.
  intros Hb. induction a as [|c a IH]; [ reflexivity | ].
  cbn [append ends_with_sep]. rewrite IH.
  destruct (a ++ b) eqn:E; [ | reflexivity ].
  destruct a; cbn in E; congruence.
Qed.

End StrFacts.

(* ------------------------------------------------------------------ *)
(** ** Facts about [join] *)

Module PathFacts.
Import Str StrFacts Path.

(** The example of Node's documentation. *)
Example join_doc :
  join ["/foo"; "bar"; "baz/asdf"; "quux"; ".."] = "/foo/bar/baz/asdf".
Proof. reflexivity. Qed.

(** Cases of Node's own tests of [path.join]. *)
Example join_relative :
  join ["."; "x/b"; ".."; "/b/c.js"] = "x/b/c.js"
  /\ join ["foo"; "../../../bar"] = "../../bar"
  /\ join ["foo/"; "../../../bar"] = "../../bar"
  /\ join ["foo/x"; "../../../bar"] = "../bar"
  /\ join ["foo/x"; "./bar"] = "foo/x/bar"
  /\ join ["foo/x/"; "./bar"] = "foo/x/bar"
  /\ join ["foo/x/"; "."; "bar"] = "foo/x/bar"
  /\ join ["./"; ".."; "/foo"] = "../foo"
  /\ join ["./"; ".."; ".."; "/foo"] = "../../foo"
  /\ join ["."; ".."; ".."; "/foo"] = "../../foo"
  /\ join [""; ".."; ".."; "/foo"] = "../../foo"
  /\ join ["foo"; "/bar"] = "foo/bar"
  /\ join ["foo"; ""; "/bar"] = "foo/bar"
  /\ join [" "; "foo"] = " /foo"
  /\ join [" "; "."] = " "
  /\ join [" "; "/"] = " /".
Proof. repeat split; reflexivity. Qed.

Example join_empty_and_dots :
  join [] = "."
  /\ join [""] = "."
  /\ join [""; ""] = "."
  /\ join ["./"] = "./"
  /\ join ["."; "./"] = "./"
  /\ join ["."; "."; "."] = "."
  /\ join ["."; "./"; "."] = "."
  /\ join [""; "."] = "."
  /\ join [""; "foo"] = "foo"
  /\ join [""; ""; "foo"] = "foo"
  /\ join ["foo"; ""] = "foo"
  /\ join ["foo/"; ""] = "foo/"
  /\ join [" "; ""] = " ".
Proof. repeat split; reflexivity. Qed.

Example join_absolute :
  join ["/foo"; "../../../bar"] = "/bar"
  /\ join [""; "/foo"] = "/foo"
  /\ join [""; ""; "/foo"] = "/foo"
  /\ join ["/"] = "/"
  /\ join ["/"; "."] = "/"
  /\ join ["/"; ".."] = "/"
  /\ join ["/"; ".."; ".."] = "/"
  /\ join ["/"; "foo"] = "/foo"
  /\ join ["/"; "/foo"] = "/foo"
  /\ join ["/"; "//foo"] = "/foo"
  /\ join ["/"; ""; "/foo"] = "/foo"
  /\ join [""; "/"; "foo"] = "/foo"
  /\ join [""; "/"; "/foo"] = "/foo"
  /\ join ["/a//b/"; "./c/"] = "/a/b/c/".
Proof. repeat split; reflexivity. Qed.

(** Cases of Node's own tests of [path.normalize]. *)
Example normalize_cases :
  normalize "./fixtures///b/../b/c.js" = "fixtures/b/c.js"
  /\ normalize "/foo/../../../bar" = "/bar"
  /\ normalize "a//b//../b" = "a/b"
  /\ normalize "a//b//./c" = "a/b/c"
  /\ normalize "a//b//." = "a/b"
  /\ normalize "/a/b/c/../../../x/y/z" = "/x/y/z"
  /\ normalize "///..//./foo/.//bar" = "/foo/bar"
  /\ normalize "bar/foo../../" = "bar/"
  /\ normalize "bar/foo../.." = "bar"
  /\ normalize "bar/foo../../baz" = "bar/baz"
  /\ normalize "bar/foo../" = "bar/foo../"
  /\ normalize "bar/foo.." = "bar/foo.."
  /\ normalize "../foo../../../bar" = "../../bar"
  /\ normalize "../.../.././.../../../bar" = "../../bar"
  /\ normalize "../../../foo/../../../bar" = "../../../../../bar"
  /\ normalize "../../../foo/../../../bar/../../" = "../../../../../../"
  /\ normalize "../foobar/barfoo/foo/../../../bar/../../" = "../../"
  /\ normalize "../.../../foobar/../../../bar/../../baz"
     = "../../../../baz".
Proof. repeat split; reflexivity. Qed.

Lemma plain_step (allow : bool) (res : list string) (seg : string) :
  plain seg = true -> step allow res seg = seg :: res.
Proof.
  unfold plain, step. intros H.
  destruct (String.eqb seg ""); [ discriminate | ].
  destruct (String.eqb seg "."); [ discriminate | ].
  destruct (String.eqb seg ".."); [ discriminate | reflexivity ].
Qed.

Lemma long_plain (s : string) : 3 <= String.length s -> plain s = true.
Proof.
  destruct s as [|a [|b [|c s]]]; cbn [String.length]; try lia.
  intros _. unfold plain.
  destruct (String.eqb_spec (String a (String b (String c s))) "");
    [ discriminate | ].
  destruct (String.eqb_spec (String a (String b (String c s))) ".");
    [ discriminate | ].
  destruct (String.eqb_spec (String a (String b (String c s))) "..");
    [ discriminate | reflexivity ].
Qed.

Lemma fold_step_app (allow : bool) (a b res : list string) :
  fold_left (step allow) (a ++ b) res
  = fold_left (step allow) b (fold_left (step allow) a res).
Proof. apply fold_left_app. Qed.

(** *** What a result holds *)

Lemma step_kept (allow : bool) (res : list string) (seg : string) :
  no_sep seg = true ->
  Forall (fun x => kept x = true) res ->
  Forall (fun x => kept x = true) (step allow res seg).
Proof.
  intros Hs Hres. unfold step.
  destruct (String.eqb seg "") eqn:E1; [ exact Hres | ].
  destruct (String.eqb seg ".") eqn:E2; [ exact Hres | ].
  destruct (String.eqb seg "..") eqn:E3.
  - apply String.eqb_eq in E3. subst seg.
    destruct res as [|top rest].
    + destruct allow; repeat constructor.
    + destruct (String.eqb top "..").
      * destruct allow; [ constructor; [ reflexivity | ] | ]; exact Hres.
      * inversion Hres; assumption.
  - constructor; [ | exact Hres ].
    unfold kept. rewrite Hs, E1, E2. reflexivity.
Qed.

Lemma fold_kept (allow : bool) (segs res : list string) :
  Forall (fun x => no_sep x = true) segs ->
  Forall (fun x => kept x = true) res ->
  Forall (fun x => kept x = true) (fold_left (step allow) segs res).
Proof.
  revert res. induction segs as [|seg segs IH]; intros res Hs Hres.
  - exact Hres.
  - inversion Hs; subst. cbn [fold_left].
    apply IH; [ assumption | apply step_kept; assumption ].
Qed.

Lemma normalizeSegments_kept (allow : bool) (path : string) :
  Forall (fun x => kept x = true) (normalizeSegments allow (split path)).
Proof.
  apply fold_kept; [ apply split_segments_no_sep | constructor ].
Qed.

(** *** Relative paths: the depth of the result *)

Local Open Scope Z_scope.

Lemma step_depth (res : list string) (seg : string) :
  depth (step true res seg)
  = depth res + (if plain seg then 1
                 else if String.eqb seg ".." then -1 else 0).
Proof.
  unfold step, plain.
  destruct (String.eqb seg "") eqn:E1; cbn [negb andb].
  { apply String.eqb_eq in E1. subst seg. cbn. lia. }
  destruct (String.eqb seg ".") eqn:E2; cbn [negb andb].
  { apply String.eqb_eq in E2. subst seg. cbn. lia. }
  destruct (String.eqb seg "..") eqn:E3; cbn [negb andb].
  - destruct res as [|top rest]; [ reflexivity | ].
    destruct (String.eqb top "..") eqn:E4; cbn [depth].
    + rewrite E4. change (String.eqb ".." "..") with true. cbv iota. lia.
    + rewrite E4. lia.
  - cbn [depth]. rewrite E3. lia.
Qed.

(** Two results that start a fixed distance apart stay that far apart. *)
Lemma fold_depth_shift (segs res res' : list string) (k : Z) :
  depth res' = depth res + k ->
  depth (fold_left (step true) segs res')
  = depth (fold_left (step true) segs res) + k.
Proof.
  revert res res'. induction segs as [|seg segs IH]; intros res res' H.
  - exact H.
  - cbn [fold_left]. apply IH. rewrite !step_depth. lia.
Qed.

Local Close Scope Z_scope.

(** *** Absolute paths: the length of the result *)

Lemma step_no_dots (res : list string) (seg : string) :
  no_dots res -> no_dots (step false res seg).
Proof.
  intros H. unfold step.
  destruct (String.eqb seg ""); [ exact H | ].
  destruct (String.eqb seg "."); [ exact H | ].
  destruct (String.eqb seg "..") eqn:E.
  - destruct res as [|top rest]; [ constructor | ].
    destruct (String.eqb top ".."); [ exact H | inversion H; assumption ].
  - constructor; assumption.
Qed.

Lemma fold_no_dots (segs res : list string) :
  no_dots res -> no_dots (fold_left (step false) segs res).
Proof.
  revert res. induction segs as [|seg segs IH]; intros res H;
    [ exact H | apply IH, step_no_dots, H ].
Qed.

Lemma step_length_mono (res res' : list string) (seg : string) :
  no_dots res -> no_dots res' ->
  length res <= length res' ->
  length (step false res seg) <= length (step false res' seg).
Proof.
  intros H H' Hle. unfold step.
  destruct (String.eqb seg ""); [ exact Hle | ].
  destruct (String.eqb seg "."); [ exact Hle | ].
  destruct (String.eqb seg "..").
  - destruct res as [|top rest], res' as [|top' rest']; cbn [length] in *;
      try lia.
    inversion H as [|? ? Ht _]; inversion H' as [|? ? Ht' _]; subst.
    rewrite Ht, Ht'. lia.
  - cbn [length]. lia.
Qed.

Lemma fold_length_mono (segs res res' : list string) :
  no_dots res -> no_dots res' ->
  length res <= length res' ->
  length (fold_left (step false) segs res)
  <= length (fold_left (step false) segs res').
Proof.
  revert res res'. induction segs as [|seg segs IH]; intros res res' H H' Hle.
  - exact Hle.
  - cbn [fold_left].
    apply IH; auto using step_no_dots, step_length_mono.
Qed.

Lemma step_not_plain_length (res : list string) (seg : string) :
  plain seg = false -> length (step false res seg) <= length res.
Proof.
  unfold plain, step.
  destruct (String.eqb seg ""); [ lia | ].
  destruct (String.eqb seg "."); [ lia | ].
  destruct (String.eqb seg ".."); [ | discriminate ].
  intros _. destruct res as [|top rest]; [ cbn; lia | ].
  destruct (String.eqb top ".."); cbn [length]; lia.
Qed.

(** *** The legacy path and a suffixed path differ in their results

    [dir] are the segments of the working directory, [init] and [lst]
    those of the root: the legacy path is [dir/init/lst], the suffixed
    one [dir/.vercel/init/lst.suffix]. *)
Lemma results_differ (allow : bool) (dir init : list string)
    (lst sfx : string) :
  3 <= String.length sfx ->
  step allow (fold_left (step allow) (dir ++ init) []) lst
  <> (lst ++ sfx) :: fold_left (step allow) (dir ++ ".vercel" :: init) [].
Proof.
  intros Hsfx.
  rewrite !fold_step_app. cbn [fold_left].
  set (s0 := fold_left (step allow) dir []).
  rewrite (plain_step allow s0 ".vercel") by reflexivity.
  assert (Hne : sfx <> "") by (destruct sfx; [ cbn in Hsfx; lia | discriminate ]).
  destruct (plain lst) eqn:Hplain.
  - rewrite plain_step by assumption. intros H. injection H as H _.
    exact (append_longer lst sfx Hne H).
  - assert (Hls : plain (lst ++ sfx) = true).
    { apply long_plain. rewrite length_append. lia. }
    destruct allow.
    + intros H. apply (f_equal depth) in H.
      rewrite step_depth, Hplain in H. cbn [depth] in H.
      assert (E : String.eqb (lst ++ sfx) ".." = false).
      { unfold plain in Hls. destruct (String.eqb (lst ++ sfx) "..");
          [ rewrite andb_false_r in Hls; discriminate | reflexivity ]. }
      rewrite E in H.
      rewrite (fold_depth_shift init s0 (".vercel" :: s0) 1) in H
        by (cbn [depth]; change (String.eqb ".vercel" "..") with false;
            cbv iota; lia).
      destruct (String.eqb lst ".."); lia.
    + intros H. apply (f_equal (@length string)) in H.
      cbn [length] in H.
      pose proof (step_not_plain_length
                    (fold_left (step false) init s0) lst Hplain) as H1.
      assert (Hs0 : no_dots s0) by (apply fold_no_dots; constructor).
      pose proof (fold_length_mono init s0 (".vercel" :: s0) Hs0
                    ltac:(constructor; [ reflexivity | exact Hs0 ])
                    ltac:(cbn; lia)) as H2.
      lia.
Qed.

(** *** Reading a normalized path back *)

Lemma kept_nonempty (l : list string) :
  Forall (fun x => kept x = true) l -> filter nonempty l = l.
Proof.
  induction 1 as [|x l Hx _ IH]; [ reflexivity | ].
  cbn [filter]. rewrite IH. unfold kept in Hx. unfold nonempty.
  destruct (String.eqb x ""); [ | reflexivity ].
  rewrite andb_false_r in Hx. discriminate.
Qed.

Lemma kept_no_sep (l : list string) :
  Forall (fun x => kept x = true) l -> Forall (fun x => no_sep x = true) l.
Proof.
  apply Forall_impl. intros x Hx. unfold kept in Hx.
  destruct (no_sep x); [ reflexivity | discriminate ].
Qed.

Lemma segments_sep_head (s : string) : segments (String "/" s) = segments s.
Proof. reflexivity. Qed.

Lemma segments_sep_tail (s : string) : segments (s ++ "/") = segments s.
Proof.
  unfold segments. rewrite split_append_sep, filter_app.
  cbn [split filter nonempty]. apply app_nil_r.
Qed.

Lemma segments_concat (l : list string) :
  l <> [] -> Forall (fun x => kept x = true) l ->
  segments (String.concat "/" l) = l.
Proof.
  intros Hl Hk. unfold segments.
  rewrite split_concat by auto using kept_no_sep.
  apply kept_nonempty, Hk.
Qed.

Lemma concat_not_empty (l : list string) :
  l <> [] -> Forall (fun x => kept x = true) l ->
  String.concat "/" l <> "".
Proof.
  intros Hl Hk E. pose proof (segments_concat l Hl Hk) as H.
  rewrite E in H. cbn in H. congruence.
Qed.

Lemma concat_starts (l : list string) :
  l <> [] -> Forall (fun x => kept x = true) l ->
  starts_with_sep (String.concat "/" l) = false.
Proof.
  intros Hl Hk. destruct l as [|h t]; [ congruence | ].
  inversion Hk as [|? ? Hh _]; subst.
  assert (Hs : starts_with_sep h = false /\ h <> "").
  { unfold kept in Hh. destruct h as [|c h]; [ discriminate | ].
    cbn in Hh |- *. destruct (Ascii.eqb c "/"); [ discriminate | ].
    split; [ reflexivity | discriminate ]. }
  destruct Hs as [Hs Hne].
  destruct t; cbn [String.concat]; [ exact Hs | ].
  rewrite starts_with_sep_append; assumption.
Qed.

Lemma rev_kept (l : list string) :
  Forall (fun x => kept x = true) l ->
  Forall (fun x => kept x = true) (rev l).
Proof. apply Forall_rev. Qed.

(** The segments of a normalized path are the result of
    [normalizeSegments], first segment first; an empty result shows as
    ["."] in a relative path. *)
Lemma normalize_segments (path : string) :
  path <> "" ->
  segments (normalize path)
  = match normalizeSegments (negb (starts_with_sep path)) (split path) with
    | [] => if starts_with_sep path then [] else ["."]
    | res => rev res
    end.
Proof.
  intros Hp. unfold normalize, normalizeString.
  destruct (String.eqb_spec path ""); [ contradiction | ].
  pose proof (normalizeSegments_kept (negb (starts_with_sep path)) path) as Hk.
  destruct (normalizeSegments (negb (starts_with_sep path)) (split path))
    as [|x t] eqn:E.
  - cbn [rev String.concat]. change (String.eqb "" "") with true. cbv iota.
    destruct (starts_with_sep path); [ reflexivity | ].
    destruct (ends_with_sep path); reflexivity.
  - assert (Hne : rev (x :: t) <> []).
    { intros H. apply (f_equal (@rev string)) in H.
      rewrite rev_involutive in H. discriminate. }
    apply rev_kept in Hk.
    destruct (String.eqb_spec (String.concat "/" (rev (x :: t))) "") as [E0|_].
    { exfalso. exact (concat_not_empty _ Hne Hk E0). }
    assert (H : segments (if ends_with_sep path
                          then String.concat "/" (rev (x :: t)) ++ "/"
                          else String.concat "/" (rev (x :: t)))
                = rev (x :: t)).
    { destruct (ends_with_sep path); rewrite ?segments_sep_tail;
        apply segments_concat; assumption. }
    destruct (starts_with_sep path); [ | exact H ].
    cbn [append]. rewrite segments_sep_head. exact H.
Qed.

(** A normalized path is absolute exactly when the path is. *)
Lemma normalize_starts (path : string) :
  path <> "" ->
  starts_with_sep (normalize path) = starts_with_sep path.
Proof.
  intros Hp. unfold normalize, normalizeString.
  destruct (String.eqb_spec path ""); [ contradiction | ].
  pose proof (normalizeSegments_kept (negb (starts_with_sep path)) path) as Hk.
  destruct (starts_with_sep path) eqn:Ea.
  - destruct (String.eqb _ ""); reflexivity.
  - cbn [negb] in *.
    destruct (normalizeSegments true (split path)) as [|x t] eqn:E.
    + cbn [rev String.concat]. change (String.eqb "" "") with true.
      cbv iota. destruct (ends_with_sep path); reflexivity.
    + assert (Hne : rev (x :: t) <> []).
      { intros H. apply (f_equal (@rev string)) in H.
        rewrite rev_involutive in H. discriminate. }
      apply rev_kept in Hk.
      destruct (String.eqb_spec (String.concat "/" (rev (x :: t))) "")
        as [E0|E0].
      { exfalso. exact (concat_not_empty _ Hne Hk E0). }
      destruct (ends_with_sep path);
        rewrite ?starts_with_sep_append by assumption;
        apply concat_starts; assumption.
Qed.

(** Two paths with the same normal form are both absolute or both
    relative, and have the same result. *)
Lemma normalize_inj (p q : string) :
  p <> "" -> q <> "" ->
  normalize p = normalize q ->
  starts_with_sep p = starts_with_sep q
  /\ normalizeSegments (negb (starts_with_sep p)) (split p)
     = normalizeSegments (negb (starts_with_sep p)) (split q).
Proof.
  intros Hp Hq H.
  assert (Ha : starts_with_sep p = starts_with_sep q).
  { rewrite <- (normalize_starts p Hp), <- (normalize_starts q Hq), H.
    reflexivity. }
  split; [ exact Ha | ].
  pose proof (normalize_segments p Hp) as H1.
  pose proof (normalize_segments q Hq) as H2.
  rewrite H, H2, <- Ha in H1. clear H2 H.
  pose proof (normalizeSegments_kept (negb (starts_with_sep p)) p) as K1.
  pose proof (normalizeSegments_kept (negb (starts_with_sep p)) q) as K2.
  assert (Hdot : forall y l, Forall (fun x => kept x = true) (y :: l) ->
                 rev (y :: l) <> ["."] /\ rev (y :: l) <> []).
  { intros y l K. split; intros E.
    - apply (f_equal (@rev string)) in E. rewrite rev_involutive in E.
      cbn in E. injection E as -> ->. inversion K; discriminate.
    - apply (f_equal (@rev string)) in E. rewrite rev_involutive in E.
      discriminate. }
  destruct (normalizeSegments (negb (starts_with_sep p)) (split p))
    as [|x1 t1],
    (normalizeSegments (negb (starts_with_sep p)) (split q)) as [|x2 t2].
  - reflexivity.
  - exfalso. destruct (Hdot _ _ K2) as [D1 D2].
    destruct (starts_with_sep p); congruence.
  - exfalso. destruct (Hdot _ _ K1) as [D1 D2].
    destruct (starts_with_sep p); congruence.
  - apply (f_equal (@rev string)) in H1.
    rewrite !rev_involutive in H1. congruence.
Qed.

(** *** The two kinds of destination path *)

Lemma step_empty (allow : bool) (res : list string) : step allow res "" = res.
Proof. reflexivity. Qed.

Lemma normalizeSegments_snoc (allow : bool) (segs : list string)
    (seg : string) :
  normalizeSegments allow (segs ++ [seg])
  = step allow (fold_left (step allow) segs []) seg.
Proof. unfold normalizeSegments. rewrite fold_left_app. reflexivity. Qed.

(** The legacy path [join [cwd; root]]: it is the normal form of a path
    whose result is that of the segments of [cwd] followed by those of
    [root]. *)
Lemma join_legacy (cwd root : string) (init : list string) (lst : string) :
  split root = (init ++ [lst])%list ->
  exists joined,
    joined <> ""
    /\ join [cwd; root] = normalize joined
    /\ forall allow,
         normalizeSegments allow (split joined)
         = step allow (fold_left (step allow) (dirSegments cwd ++ init) [])
                lst.
Proof.
  intros Hroot. destruct cwd as [|c cwd], root as [|r root].
  - exists ".". cbn in Hroot.
    destruct init as [|x [|y init]]; try discriminate.
    injection Hroot as <-.
    split; [ discriminate | split; [ reflexivity | ] ]. intros allow. reflexivity.
  - exists (String r root).
    split; [ discriminate | split; [ reflexivity | ] ]. intros allow.
    rewrite Hroot. apply normalizeSegments_snoc.
  - exists (String c cwd). cbn in Hroot.
    destruct init as [|x [|y init]]; try discriminate.
    injection Hroot as <-.
    split; [ discriminate | split; [ reflexivity | ] ]. intros allow.
    unfold dirSegments. cbn [String.eqb]. rewrite app_nil_r, step_empty.
    reflexivity.
  - exists (String c cwd ++ String "/" (String r root)).
    split; [ discriminate | split; [ reflexivity | ] ]. intros allow.
    rewrite split_append_sep, Hroot, app_assoc.
    apply normalizeSegments_snoc.
Qed.

(** A suffixed path [join [cwd; ".vercel"; root ++ sfx]]: it is the
    normal form of a path that is absolute when [cwd] is, and whose
    segments are those of [cwd], [".vercel"], and those of [root] with the
    suffix on the last one. *)
Lemma join_suffixed (cwd root sfx : string) (init : list string)
    (lst : string) :
  no_sep sfx = true -> sfx <> "" ->
  split root = (init ++ [lst])%list ->
  exists joined,
    joined <> ""
    /\ join [cwd; ".vercel"; root ++ sfx] = normalize joined
    /\ split joined
       = (dirSegments cwd ++ ".vercel" :: init ++ [(lst ++ sfx)%string])%list.
Proof.
  intros Hsep Hne Hroot.
  assert (Hrs : nonempty (root ++ sfx) = true).
  { destruct root; [ destruct sfx; [ congruence | reflexivity ] | reflexivity ]. }
  pose proof (split_append_no_sep root sfx init lst Hsep Hroot) as Hsplit.
  destruct cwd as [|c cwd].
  - exists (".vercel" ++ String "/" (root ++ sfx)).
    split; [ discriminate | ]. split.
    + unfold join. cbn [filter nonempty String.eqb negb]. fold (nonempty (root ++ sfx)).
      rewrite Hrs. reflexivity.
    + rewrite split_append_sep, Hsplit. reflexivity.
  - exists (String c cwd ++ String "/" (".vercel" ++ String "/" (root ++ sfx))).
    split; [ discriminate | ]. split.
    + unfold join. cbn [filter nonempty String.eqb negb]. fold (nonempty (root ++ sfx)).
      rewrite Hrs. reflexivity.
    + rewrite !split_append_sep, Hsplit. reflexivity.
Qed.

Lemma split_last (s : string) :
  exists init lst, split s = (init ++ [lst])%list.
Proof.
  destruct (exists_last (split_not_nil s)) as (init & lst & E).
  exists init, lst. exact E.
Qed.

(** The legacy path is none of the suffixed paths. *)
Lemma legacy_neq_suffixed (cwd root sfx : string) :
  no_sep sfx = true -> 3 <= String.length sfx ->
  join [cwd; root] <> join [cwd; ".vercel"; root ++ sfx].
Proof.
  intros Hsep Hlen E.
  assert (Hne : sfx <> "") by (intros ->; cbn in Hlen; lia).
  destruct (split_last root) as (init & lst & Hroot).
  destruct (join_legacy cwd root init lst Hroot) as (j1 & N1 & J1 & S1).
  destruct (join_suffixed cwd root sfx init lst Hsep Hne Hroot)
    as (j2 & N2 & J2 & S2).
  rewrite J1, J2 in E.
  destruct (normalize_inj j1 j2 N1 N2 E) as [_ H].
  rewrite S1, S2 in H.
  change (dirSegments cwd ++ ".vercel" :: init ++ [(lst ++ sfx)%string])%list
    with (dirSegments cwd ++ (".vercel" :: init) ++ [(lst ++ sfx)%string])%list
    in H.
  rewrite app_assoc, normalizeSegments_snoc in H.
  rewrite (plain_step _ _ (lst ++ sfx)) in H
    by (apply long_plain; rewrite length_append; lia).
  exact (results_differ _ _ _ _ _ Hlen H).
Qed.

(** Two suffixed paths with different suffixes differ. *)
Lemma suffixed_neq (cwd root sfx1 sfx2 : string) :
  no_sep sfx1 = true -> 3 <= String.length sfx1 ->
  no_sep sfx2 = true -> 3 <= String.length sfx2 ->
  sfx1 <> sfx2 ->
  join [cwd; ".vercel"; root ++ sfx1] <> join [cwd; ".vercel"; root ++ sfx2].
Proof.
  intros Hsep1 Hlen1 Hsep2 Hlen2 Hdiff E.
  assert (Hne1 : sfx1 <> "") by (intros ->; cbn in Hlen1; lia).
  assert (Hne2 : sfx2 <> "") by (intros ->; cbn in Hlen2; lia).
  destruct (split_last root) as (init & lst & Hroot).
  destruct (join_suffixed cwd root sfx1 init lst Hsep1 Hne1 Hroot)
    as (j1 & N1 & J1 & S1).
  destruct (join_suffixed cwd root sfx2 init lst Hsep2 Hne2 Hroot)
    as (j2 & N2 & J2 & S2).
  rewrite J1, J2 in E.
  destruct (normalize_inj j1 j2 N1 N2 E) as [_ H].
  rewrite S1, S2 in H.
  change (dirSegments cwd ++ ".vercel" :: init ++ [(lst ++ sfx1)%string])%list
    with (dirSegments cwd ++ (".vercel" :: init) ++ [(lst ++ sfx1)%string])%list
    in H.
  change (dirSegments cwd ++ ".vercel" :: init ++ [(lst ++ sfx2)%string])%list
    with (dirSegments cwd ++ (".vercel" :: init) ++ [(lst ++ sfx2)%string])%list
    in H.
  rewrite !app_assoc, !normalizeSegments_snoc in H.
  rewrite (plain_step _ _ (lst ++ sfx1)) in H
    by (apply long_plain; rewrite length_append; lia).
  rewrite (plain_step _ _ (lst ++ sfx2)) in H
    by (apply long_plain; rewrite length_append; lia).
  injection H as H. apply append_inv_head in H. contradiction.
Qed.

(** *** Paths that are in normal form already *)

Lemma concat_split (s : string) : String.concat "/" (split s) = s.
Proof.
  induction s as [|c s IH]; [ reflexivity | ].
  cbn [split]. destruct (Ascii.eqb_spec c "/") as [->|_].
  - destruct (split s) as [|h t] eqn:E; [ destruct (split_not_nil s E) | ].
    change (String.concat "/" ("" :: h :: t))
      with (String "/" (String.concat "/" (h :: t))).
    rewrite IH. reflexivity.
  - destruct (split s) as [|h [|h' t]] eqn:E; [ destruct (split_not_nil s E) | | ].
    + cbn in IH |- *. rewrite IH. reflexivity.
    + change (String.concat "/" (String c h :: h' :: t))
        with (String c (String.concat "/" (h :: h' :: t))).
      rewrite IH. reflexivity.
Qed.

Lemma no_sep_ends (s : string) : no_sep s = true -> ends_with_sep s = false.
Proof.
  induction s as [|c s IH]; [ reflexivity | ].
  cbn [no_sep ends_with_sep]. intros H. apply andb_prop in H as [Hc Hs].
  destruct s; [ destruct (Ascii.eqb c "/"); [ discriminate | reflexivity ] | ].
  apply IH, Hs.
Qed.

Lemma fold_plain (allow : bool) (segs res : list string) :
  forallb plain segs = true ->
  fold_left (step allow) segs res = (rev segs ++ res)%list.
Proof.
  revert res. induction segs as [|seg segs IH]; intros res H; [ reflexivity | ].
  cbn [forallb] in H. apply andb_prop in H as [Hs Hr].
  cbn [fold_left rev]. rewrite plain_step, IH, <- app_assoc by assumption.
  reflexivity.
Qed.

Lemma plain_kept (seg : string) :
  no_sep seg = true -> plain seg = true -> kept seg = true.
Proof.
  unfold plain, kept. intros -> H.
  destruct (String.eqb seg ""); [ discriminate | ].
  destruct (String.eqb seg "."); [ discriminate | reflexivity ].
Qed.

(** [normalize] leaves a path in normal form as it is. *)
Lemma normalize_clean (path : string) :
  cleanDir path = true -> normalize path = path.
Proof.
  unfold cleanDir. intros H.
  destruct (split path) as [|[|? ?] [|seg segs]] eqn:E; try discriminate.
  pose proof (concat_split path) as Hp. rewrite E in Hp.
  change (String.concat "/" ("" :: seg :: segs))
    with (String "/" (String.concat "/" (seg :: segs))) in Hp.
  pose proof (split_segments_no_sep path) as Hsep. rewrite E in Hsep.
  pose proof (Forall_inv_tail Hsep) as Hsep'. clear Hsep.
  assert (Hk : Forall (fun s => kept s = true) (seg :: segs)).
  { rewrite forallb_forall in H. rewrite Forall_forall in Hsep' |- *.
    intros s Hs. apply plain_kept; auto. }
  assert (Hc : String.concat "/" (seg :: segs) <> "")
    by (apply concat_not_empty; [ discriminate | exact Hk ]).
  assert (Hend : ends_with_sep path = false).
  { rewrite <- Hp.
    change (String "/" (String.concat "/" (seg :: segs)))
      with ("/" ++ String.concat "/" (seg :: segs)).
    rewrite ends_with_sep_append by exact Hc.
    destruct (exists_last (l := seg :: segs) ltac:(discriminate))
      as (init & lst & El).
    rewrite El in *.
    assert (Hl : no_sep lst = true /\ lst <> "").
    { apply Forall_app in Hsep' as [_ Hs]. apply Forall_app in Hk as [_ Hk'].
      inversion Hs; inversion Hk'; subst. split; [ assumption | ].
      intros ->. discriminate. }
    destruct Hl as [Hl1 Hl2].
    destruct init as [|i init]; [ apply no_sep_ends, Hl1 | ].
    rewrite concat_app by discriminate.
    rewrite ends_with_sep_append by discriminate.
    change (String "/" (String.concat "/" [lst])) with ("/" ++ lst).
    rewrite ends_with_sep_append by exact Hl2. apply no_sep_ends, Hl1. }
  assert (Hstart : starts_with_sep path = true)
    by (rewrite <- Hp; reflexivity).
  assert (Hpath : String.eqb path "" = false)
    by (rewrite <- Hp; reflexivity).
  unfold normalize, normalizeString, normalizeSegments.
  rewrite Hpath, Hstart, Hend, E. cbn [negb].
  change (fold_left (step false) ("" :: seg :: segs) [])
    with (fold_left (step false) (seg :: segs) []).
  rewrite fold_plain, app_nil_r, rev_involutive by exact H.
  destruct (String.eqb_spec (String.concat "/" (seg :: segs)) "");
    [ contradiction | ].
  exact Hp.
Qed.

(** Plain names after a path in normal form give a path in normal form. *)
Lemma cleanDir_concat (cwd : string) (names : list string) :
  cleanDir cwd = true -> forallb cleanName names = true ->
  cleanDir (String.concat "/" (cwd :: names)) = true.
Proof.
  intros Hc Hn. destruct names as [|n names]; [ exact Hc | ].
  unfold cleanDir in *.
  change (String.concat "/" (cwd :: n :: names))
    with (cwd ++ String "/" (String.concat "/" (n :: names))).
  rewrite split_append_sep.
  assert (Hs : Forall (fun x => no_sep x = true) (n :: names)
               /\ forallb plain (n :: names) = true).
  { split.
    - rewrite Forall_forall. rewrite forallb_forall in Hn.
      intros x Hx. apply Hn in Hx. unfold cleanName in Hx.
      apply andb_prop in Hx. tauto.
    - rewrite forallb_forall in Hn |- *.
      intros x Hx. apply Hn in Hx. unfold cleanName in Hx.
      apply andb_prop in Hx. tauto. }
  destruct Hs as [Hs Hp].
  rewrite (split_concat (n :: names)) by (auto; discriminate).
  destruct (split cwd) as [|[|? ?] [|seg segs]]; try discriminate.
  change (forallb plain ((seg :: segs) ++ n :: names) = true).
  rewrite forallb_app, Hc, Hp. reflexivity.
Qed.

Lemma cleanDir_nonempty (cwd : string) : cleanDir cwd = true -> nonempty cwd = true.
Proof. destruct cwd; [ discriminate | reflexivity ]. Qed.

Lemma cleanName_nonempty (name : string) :
  cleanName name = true -> nonempty name = true.
Proof.
  unfold cleanName, plain, nonempty. destruct (String.eqb name "");
    [ rewrite andb_false_r; discriminate | reflexivity ].
Qed.

(** On a directory in normal form and plain names, [join] puts its
    arguments together with separators and changes nothing else. *)
Lemma join_clean (cwd : string) (names : list string) :
  cleanDir cwd = true -> forallb cleanName names = true ->
  join (cwd :: names) = String.concat "/" (cwd :: names).
Proof.
  intros Hc Hn. unfold join.
  assert (Hf : filter nonempty (cwd :: names) = cwd :: names).
  { cbn [filter]. rewrite (cleanDir_nonempty cwd Hc). f_equal.
    clear Hc. induction names as [|n names IH]; [ reflexivity | ].
    cbn [forallb] in Hn. apply andb_prop in Hn as [H1 H2].
    cbn [filter]. rewrite (cleanName_nonempty n H1), (IH H2). reflexivity. }
  rewrite Hf. apply normalize_clean, cleanDir_concat; assumption.
Qed.

Lemma cleanName_suffixed (root sfx : string) :
  no_sep root = true -> no_sep sfx = true -> 3 <= String.length sfx ->
  cleanName (root ++ sfx) = true.
Proof.
  intros Hr Hs Hl. unfold cleanName.
  rewrite no_sep_append, Hr, Hs. cbn [andb].
  apply long_plain. rewrite length_append. lia.
Qed.

(** An empty root adds nothing to the working directory. *)
Lemma join_empty_root (cwd : string) : join [cwd; ""] = normalize cwd.
Proof. destruct cwd; reflexivity. Qed.

End PathFacts.

(* ------------------------------------------------------------------ *)
(** ** Properties of the command *)

Module PullProps.
Import Pull.
Local Open Scope Z_scope.

(* Unfold a run down to the calls of the collaborators. *)
Ltac unfold_run :=
  cbv [traceOf exitCodeOf run main parseArgs processArgs ensureLink
       call_getLinkedProject call_setupAndLink pullAllEnvFiles call_envPull
       setCurrentTeam emit bind ret getClient];
  cbn [client trace fst snd app argv currentTeam].

Ltac tidy := cbn [client trace fst snd app argv currentTeam].

(* The shapes a run can take: the arguments stop it, or the link is
   looked up and, when there is none, set up. *)
Ltac split_run W c :=
  unfold_run;
  destruct (getArgs W (skipn 2 (argv c))) as [a|] eqn:Hargs; tidy;
    [ destruct (truthy (arg_help a)) eqn:Hhelp; tidy;
      [ | destruct (getLinkedProject W c (main_cwd W a))
            as [org project | | code] eqn:Hlookup; tidy;
          [ | destruct (setupAndLink W c (main_cwd W a) (main_yes a))
                as [org project | | code] eqn:Hsetup; tidy | ] ]
    | ].

(* Name the four exit codes of a run that reached the downloads, and
   split on their aggregate. *)
Ltac sync_cases :=
  match goal with
  | |- context [Z.eqb (aggregate ?x1 ?x2 ?x3 ?x4) 0] =>
      set (r1 := x1) in *; set (r2 := x2) in *;
      set (r3 := x3) in *; set (r4 := x4) in *;
      destruct (Z.eqb_spec (aggregate r1 r2 r3 r4) 0) as [Hagg | Hagg];
      cbn [negb]; tidy
  end.

Lemma or_number_zero (x y : Z) : or_number x y = 0 <-> x = 0 /\ y = 0.
Proof.
  unfold or_number. destruct (Z.eqb_spec x 0); subst; intuition congruence.
Qed.

Lemma aggregate_zero (a b c d : Z) :
  aggregate a b c d = 0 <-> a = 0 /\ b = 0 /\ c = 0 /\ d = 0.
Proof.
  unfold aggregate. rewrite !or_number_zero. intuition.
Qed.

Lemma aggregate_firstNonzero (a b c d : Z) :
  aggregate a b c d = firstNonzero [a; b; c; d].
Proof.
  unfold aggregate, firstNonzero, or_number; cbn [find].
  destruct (Z.eqb_spec a 0) as [->|Ha]; cbn [negb].
  - destruct (Z.eqb_spec b 0) as [->|Hb]; cbn [negb].
    + destruct (Z.eqb_spec c 0) as [->|Hc]; cbn [negb].
      * destruct (Z.eqb_spec d 0) as [->|Hd]; cbn [negb]; reflexivity.
      * destruct (Z.eqb_spec c 0); [contradiction | reflexivity].
    + destruct (Z.eqb_spec b 0); [contradiction |].
      destruct (Z.eqb_spec b 0); [contradiction | reflexivity].
  - destruct (Z.eqb_spec a 0); [contradiction |].
    destruct (Z.eqb_spec a 0); [contradiction |].
    destruct (Z.eqb_spec a 0); [contradiction | reflexivity].
Qed.

Section Run.
Context {Project : Type}.
Variable W : Collaborators Project.

(** What [pullAllEnvFiles] does, in full: four calls, no change to the
    client, and the aggregate of the four codes. *)
Lemma pullAllEnvFiles_run (root : string) (project : Project) (args : Argv)
    (cwd : string) (st : State Project) :
  let c := client st in
  let p1 := [Path.join [cwd; root]] in
  let p2 := [Path.join [cwd; ".vercel"; root ++ ".development.local"]] in
  let p3 := [Path.join [cwd; ".vercel"; root ++ ".preview.local"]] in
  let p4 := [Path.join [cwd; ".vercel"; root ++ ".production.local"]] in
  let r1 := envPull W c project Development args p1 in
  let r2 := envPull W c project Development args p2 in
  let r3 := envPull W c project Preview args p3 in
  let r4 := envPull W c project Production args p4 in
  pullAllEnvFiles W root project args cwd st
  = (aggregate r1 r2 r3 r4,
     mkState c
       (trace st ++
        [CallEnvPull project Development args p1 (currentTeam c) r1;
         CallEnvPull project Development args p2 (currentTeam c) r2;
         CallEnvPull project Preview args p3 (currentTeam c) r3;
         CallEnvPull project Production args p4 (currentTeam c) r4])).
Proof.
  intros. unfold_run. rewrite <- !app_assoc. reflexivity.
Qed.

(** C1.  The value [pullAllEnvFiles] returns for the four result codes,
    taken in the order legacy development, development, preview,
    production, is 0 exactly when the four codes are 0, and is in every
    case the first code of that order that is not 0 (0 when there is
    none).  A run of [pullAllEnvFiles] makes four downloads and returns
    that value of their four codes. *)
Theorem aggregate_is_first_nonzero :
  (forall a b c d : Z,
     (aggregate a b c d = 0 <-> a = 0 /\ b = 0 /\ c = 0 /\ d = 0)
     /\ aggregate a b c d = firstNonzero [a; b; c; d])
  /\ (forall root project args cwd c,
        let r := pullAllEnvFiles W root project args cwd (mkState c []) in
        length (syncResults (trace (snd r))) = 4%nat
        /\ fst r = firstNonzero (syncResults (trace (snd r)))).
Proof.
  split.
  - intros a b c d. split.
    + apply aggregate_zero.
    + apply aggregate_firstNonzero.
  - intros root project args cwd c r. subst r.
    rewrite pullAllEnvFiles_run. cbn [fst snd trace client app].
    cbv [syncResults]; cbn [flat_map app length]. split.
    + reflexivity.
    + apply aggregate_firstNonzero.
Qed.

(** C2.  In every run, [writeProjectSettings] is called exactly when the
    four downloads were made and the aggregate of their codes is 0; when
    the four downloads were made and their aggregate is not 0, the run
    returns the aggregate and [writeProjectSettings] is not called. *)
Theorem settings_written_iff_aggregate_zero (c : Client) :
  (wrote (traceOf W c) = true <->
   exists r1 r2 r3 r4,
     syncResults (traceOf W c) = [r1; r2; r3; r4]
     /\ aggregate r1 r2 r3 r4 = 0)
  /\ (forall r1 r2 r3 r4,
        syncResults (traceOf W c) = [r1; r2; r3; r4] ->
        aggregate r1 r2 r3 r4 <> 0 ->
        exitCodeOf W c = aggregate r1 r2 r3 r4
        /\ wrote (traceOf W c) = false).
Proof.
  split_run W c; try sync_cases.
  all: try (split; [ split; [ discriminate
                            | intros (? & ? & ? & ? & ? & _); discriminate ]
                   | intros; discriminate ]).
  all: cbv [wrote syncResults]; cbn [flat_map existsb isWrite app orb].
  all: split; [ split | ].
  all: try discriminate.
  all: try (intros _; exists r1, r2, r3, r4; split;
            [ reflexivity | assumption ]).
  all: try (intros; reflexivity).
  all: try (intros (q1 & q2 & q3 & q4 & Hq & Hz);
            injection Hq as <- <- <- <-; contradiction).
  all: intros q1 q2 q3 q4 Hq Hz; injection Hq as <- <- <- <-;
    try contradiction; split; reflexivity.
Qed.

(** C3.  When the arguments are read, the lookup says [not_linked] and
    the setup says [not_linked] too, [ensureLink] returns 0, the run
    exits with 0, no download is made and [writeProjectSettings] is not
    called. *)
Theorem abort_exits_zero (c : Client) (a : Argv) :
  getArgs W (skipn 2 (argv c)) = Some a ->
  truthy (arg_help a) = false ->
  getLinkedProject W c (main_cwd W a) = not_linked ->
  setupAndLink W c (main_cwd W a) (main_yes a) = not_linked ->
  fst (ensureLink W (main_cwd W a) (main_yes a) (mkState c [])) = LinkNumber 0
  /\ exitCodeOf W c = 0
  /\ dispatched (traceOf W c) = false
  /\ wrote (traceOf W c) = false.
Proof.
  intros Ha Hh Hl Hs. unfold_run.
  rewrite Ha; tidy. rewrite Hh; tidy. rewrite Hl; tidy. rewrite Hs; tidy.
  repeat split; reflexivity.
Qed.

(** C4.  When the lookup says the directory is linked, [ensureLink]
    returns that link, and its only call is the lookup: [setupAndLink]
    is not called. *)
Theorem linked_returns_without_setup (cwd : string) (yes : bool)
    (st : State Project) (org : Org) (project : Project) :
  getLinkedProject W (client st) cwd = linked org project ->
  ensureLink W cwd yes st
  = (IsLink org project,
     mkState (client st)
             (trace st ++ [CallGetLinkedProject cwd (linked org project)]))
  /\ setupInvoked (trace (snd (ensureLink W cwd yes (mkState (client st) []))))
     = false.
Proof.
  intros Hl. unfold_run. rewrite Hl; tidy. split; reflexivity.
Qed.

(** C5.  When the lookup reports an error with an exit code, or says
    [not_linked] and the setup then reports an error with an exit code,
    [ensureLink] returns that exit code and the run exits with it,
    unchanged; no download is made and nothing is written. *)
Theorem link_error_passes_through (c : Client) (a : Argv) (exitCode : Z) :
  getArgs W (skipn 2 (argv c)) = Some a ->
  truthy (arg_help a) = false ->
  LinkFails W c (main_cwd W a) (main_yes a) exitCode ->
  (forall tr, fst (ensureLink W (main_cwd W a) (main_yes a) (mkState c tr))
              = LinkNumber exitCode)
  /\ exitCodeOf W c = exitCode
  /\ dispatched (traceOf W c) = false
  /\ wrote (traceOf W c) = false.
Proof.
  intros Ha Hh [Hl | Hl Hs]; unfold_run;
    rewrite Ha; tidy; rewrite Hh; tidy; rewrite Hl; tidy;
    try (rewrite Hs; tidy); repeat split; reflexivity.
Qed.

(** C6.  Whatever the root and the working directory, [pullAllEnvFiles]
    makes exactly four downloads, in this order: Development to
    [join cwd root], Development to
    [join cwd ".vercel" (root ++ ".development.local")], Preview to
    [join cwd ".vercel" (root ++ ".preview.local")] and Production to
    [join cwd ".vercel" (root ++ ".production.local")].  When the working
    directory is in normal form and the root is a plain name, these are,
    letter for letter, [cwd/root], [cwd/.vercel/root.development.local],
    [cwd/.vercel/root.preview.local] and
    [cwd/.vercel/root.production.local]. *)
Theorem four_sync_tasks (root : string) (project : Project) (args : Argv)
    (cwd : string) (c : Client) :
  let tasks :=
    syncTasks
      (trace (snd (pullAllEnvFiles W root project args cwd (mkState c []))))
  in
  tasks
  = [(Development, [Path.join [cwd; root]]);
     (Development,
       [Path.join [cwd; ".vercel"; root ++ ".development.local"]]);
     (Preview, [Path.join [cwd; ".vercel"; root ++ ".preview.local"]]);
     (Production,
       [Path.join [cwd; ".vercel"; root ++ ".production.local"]])]
  /\ (Path.cleanDir cwd = true -> Path.cleanName root = true ->
      tasks
      = [(Development, [cwd ++ "/" ++ root]);
         (Development, [cwd ++ "/.vercel/" ++ root ++ ".development.local"]);
         (Preview, [cwd ++ "/.vercel/" ++ root ++ ".preview.local"]);
         (Production, [cwd ++ "/.vercel/" ++ root ++ ".production.local"])]).
Proof.
  intros tasks. subst tasks. rewrite pullAllEnvFiles_run.
  split; [ reflexivity | ].
  intros Hc Hr. cbn [snd trace app]. cbv [syncTasks]. cbn [flat_map app].
  assert (Hsep : Str.no_sep root = true).
  { unfold Path.cleanName in Hr. apply andb_prop in Hr. tauto. }
  rewrite (PathFacts.join_clean cwd [root])
    by (cbn [forallb]; rewrite ?Hr; auto).
  rewrite !(PathFacts.join_clean cwd [".vercel"; _])
    by (cbn [forallb]; rewrite ?PathFacts.cleanName_suffixed; auto;
        cbn; lia).
  reflexivity.
Qed.

(** C8.  Whatever the root and the working directory, the four
    destination paths of [pullAllEnvFiles] are pairwise distinct. *)
Theorem destinations_distinct (root : string) (project : Project)
    (args : Argv) (cwd : string) (c : Client) :
  let paths :=
    destinations
      (trace (snd (pullAllEnvFiles W root project args cwd (mkState c []))))
  in
  length paths = 4%nat /\ NoDup paths.
Proof.
  intros paths. subst paths. rewrite pullAllEnvFiles_run.
  cbn [snd trace app]. cbv [destinations syncTasks]. cbn [flat_map app snd].
  split; [ reflexivity | ].
  pose proof (PathFacts.legacy_neq_suffixed cwd root ".development.local"
                eq_refl ltac:(cbn; lia)) as L1.
  pose proof (PathFacts.legacy_neq_suffixed cwd root ".preview.local"
                eq_refl ltac:(cbn; lia)) as L2.
  pose proof (PathFacts.legacy_neq_suffixed cwd root ".production.local"
                eq_refl ltac:(cbn; lia)) as L3.
  pose proof (PathFacts.suffixed_neq cwd root ".development.local"
                ".preview.local" eq_refl ltac:(cbn; lia)
                eq_refl ltac:(cbn; lia) ltac:(discriminate)) as S1.
  pose proof (PathFacts.suffixed_neq cwd root ".development.local"
                ".production.local" eq_refl ltac:(cbn; lia)
                eq_refl ltac:(cbn; lia) ltac:(discriminate)) as S2.
  pose proof (PathFacts.suffixed_neq cwd root ".preview.local"
                ".production.local" eq_refl ltac:(cbn; lia)
                eq_refl ltac:(cbn; lia) ltac:(discriminate)) as S3.
  repeat constructor; cbn [In]; intuition congruence.
Qed.

(** C7.  In a run whose arguments are read and whose link is resolved to
    an organisation and a project, the team of the shared client is
    assigned exactly once, before any download: to the id of the
    organisation when its type is ["team"], to [undefined] otherwise.
    The four downloads all see that team, and it is the team of the
    client when the run ends. *)
Theorem team_set_once_before_sync (c : Client) (a : Argv) (org : Org)
    (project : Project) :
  getArgs W (skipn 2 (argv c)) = Some a ->
  truthy (arg_help a) = false ->
  fst (ensureLink W (main_cwd W a) (main_yes a) (mkState c []))
  = IsLink org project ->
  exists before after,
    traceOf W c = (before ++ SetCurrentTeam (teamOf org) :: after)%list
    /\ existsb isSetTeam before = false
    /\ dispatched before = false
    /\ existsb isSetTeam after = false
    /\ syncTeams after = [teamOf org; teamOf org; teamOf org; teamOf org]
    /\ currentTeam (client (snd (run W c))) = teamOf org.
Proof.
  intros Ha Hh. unfold_run. rewrite Ha; tidy. rewrite Hh; tidy.
  destruct (getLinkedProject W c (main_cwd W a)) as [o p | | code]; tidy.
  - intros [= -> ->]. sync_cases.
    all: eexists [_; _], _; split; [ reflexivity | ]; repeat split; reflexivity.
  - destruct (setupAndLink W c (main_cwd W a) (main_yes a))
      as [o p | | code]; tidy; try discriminate.
    intros [= -> ->]. sync_cases.
    all: eexists [_; _; _], _; split; [ reflexivity | ];
      repeat split; reflexivity.
  - discriminate.
Qed.

(** C9.  When [getArgs] returns arguments with the help flag, the run
    prints the usage and exits with 2; when [getArgs] throws, the run
    reports the error and exits with 1.  In both cases these are the only
    calls of the run: no lookup, no setup, no download, nothing
    written. *)
Theorem arguments_stop_the_run (c : Client) (exitCode : Z)
    (ev : Event Project) :
  let args := skipn 2 (argv c) in
  ArgsStop (getArgs W args) exitCode ev ->
  run W c = (exitCode, mkState c [CallGetArgs args (getArgs W args); ev])
  /\ linkLookedUp (traceOf W c) = false
  /\ setupInvoked (traceOf W c) = false
  /\ dispatched (traceOf W c) = false
  /\ wrote (traceOf W c) = false.
Proof.
  intros args H. subst args. unfold_run.
  destruct H as [a Hh | ]; tidy; [ rewrite Hh | ]; tidy;
    repeat split; reflexivity.
Qed.

(** The downloads of a run that resolved its link. *)
Lemma run_syncTasks (c : Client) (a : Argv) (org : Org) (project : Project) :
  getArgs W (skipn 2 (argv c)) = Some a ->
  truthy (arg_help a) = false ->
  fst (ensureLink W (main_cwd W a) (main_yes a) (mkState c []))
  = IsLink org project ->
  syncTasks (traceOf W c)
  = syncTasks
      (trace (snd (pullAllEnvFiles W (main_env a) project a (main_cwd W a)
                     (mkState c [])))).
Proof.
  intros Ha Hh. unfold_run. rewrite Ha; tidy. rewrite Hh; tidy.
  destruct (getLinkedProject W c (main_cwd W a)) as [o p | | code]; tidy.
  - intros [= -> ->]. sync_cases; reflexivity.
  - destruct (setupAndLink W c (main_cwd W a) (main_yes a))
      as [o p | | code]; tidy; try discriminate.
    intros [= -> ->]. sync_cases; reflexivity.
  - discriminate.
Qed.

(** C10.  The root is [".env"] when [--env] is absent, and is the value
    of [--env] whenever one is given.  When [--env] is the empty string
    the root is the empty string: the legacy
    destination is the working directory itself, in normal form, and the
    three other files are named [.development.local], [.preview.local]
    and [.production.local] in [.vercel]. *)
Theorem env_default_only_when_absent (c : Client) (a : Argv) (org : Org)
    (project : Project) :
  getArgs W (skipn 2 (argv c)) = Some a ->
  truthy (arg_help a) = false ->
  fst (ensureLink W (main_cwd W a) (main_yes a) (mkState c []))
  = IsLink org project ->
  let cwd := main_cwd W a in
  (arg_env a = None -> main_env a = ".env")
  /\ (forall s, arg_env a = Some s -> main_env a = s)
  /\ (arg_env a = Some "" ->
      main_env a = ""
      /\ syncTasks (traceOf W c)
         = [(Development, [Path.normalize cwd]);
            (Development, [Path.join [cwd; ".vercel"; ".development.local"]]);
            (Preview, [Path.join [cwd; ".vercel"; ".preview.local"]]);
            (Production, [Path.join [cwd; ".vercel"; ".production.local"]])]
      /\ (Path.cleanDir cwd = true ->
          syncTasks (traceOf W c)
          = [(Development, [cwd]);
             (Development, [cwd ++ "/.vercel/.development.local"]);
             (Preview, [cwd ++ "/.vercel/.preview.local"]);
             (Production, [cwd ++ "/.vercel/.production.local"])])).
Proof.
  intros Ha Hh Hl cwd. split; [ | split ].
  - unfold main_env. intros ->. reflexivity.
  - unfold main_env. intros s ->. reflexivity.
  - intros He.
    assert (Henv : main_env a = "") by (unfold main_env; rewrite He; reflexivity).
    split; [ exact Henv | ].
    rewrite (run_syncTasks c a org project Ha Hh Hl), Henv.
    fold cwd. rewrite pullAllEnvFiles_run.
    cbn [snd trace app]. cbv [syncTasks]. cbn [flat_map app append].
    rewrite PathFacts.join_empty_root.
    split; [ reflexivity | ].
    intros Hc.
    rewrite (PathFacts.normalize_clean cwd Hc).
    rewrite !(PathFacts.join_clean cwd [".vercel"; _]) by auto.
    reflexivity.
Qed.

End Run.

(** *** The properties on concrete runs *)

Import Examples.

(** A directory that is not linked, a setup that links it to a project
    of a team, and four downloads that succeed: the run exits with 0
    after these calls, with the team set. *)
Example run_setup_completed :
  run (world (Some plainArgs) not_linked (linked teamOrg "prj_P1")
             allSucceed) theClient
  = (0,
     mkState (mkClient ["node"; "vercel"; "pull"] (Some "team_T1"))
       [CallGetArgs ["pull"] (Some plainArgs);
        CallGetLinkedProject "/home/u/app" not_linked;
        CallSetupAndLink "/home/u/app" false "link" "Set up"
                         (linked teamOrg "prj_P1");
        SetCurrentTeam (Some "team_T1");
        CallEnvPull "prj_P1" Development plainArgs ["/home/u/app/.env"]
                    (Some "team_T1") 0;
        CallEnvPull "prj_P1" Development plainArgs
                    ["/home/u/app/.vercel/.env.development.local"]
                    (Some "team_T1") 0;
        CallEnvPull "prj_P1" Preview plainArgs
                    ["/home/u/app/.vercel/.env.preview.local"]
                    (Some "team_T1") 0;
        CallEnvPull "prj_P1" Production plainArgs
                    ["/home/u/app/.vercel/.env.production.local"]
                    (Some "team_T1") 0;
        CallWriteProjectSettings "/home/u/app" "prj_P1" teamOrg;
        CallPrint]).
Proof. reflexivity. Qed.

(** The relative working directory ["."] with [--env custom]. *)
Example four_sync_tasks_relative :
  syncTasks
    (trace (snd (pullAllEnvFiles
                   (world (Some customArgs) (linked teamOrg "prj_P1")
                          not_linked allSucceed)
                   "custom" "prj_P1" customArgs "." (mkState theClient []))))
  = [(Development, ["custom"]);
     (Development, [".vercel/custom.development.local"]);
     (Preview, [".vercel/custom.preview.local"]);
     (Production, [".vercel/custom.production.local"])].
Proof. reflexivity. Qed.

(** The scenario of a linked directory whose development download
    fails: the exit code is that of the download and nothing is
    written. *)
Lemma settings_written_iff_aggregate_zero_scenario :
  exitCodeOf (world (Some plainArgs) (linked teamOrg "prj_P1") not_linked
                    devFails) theClient = 7
  /\ wrote (traceOf (world (Some plainArgs) (linked teamOrg "prj_P1")
                           not_linked devFails) theClient) = false.
Proof.
  refine (proj2 (settings_written_iff_aggregate_zero
                   (world (Some plainArgs) (linked teamOrg "prj_P1")
                          not_linked devFails) theClient)
                0 7 0 0 eq_refl _).
  discriminate.
Defined.

Lemma abort_exits_zero_scenario :
  let W := world (Some plainArgs) not_linked not_linked allSucceed in
  fst (ensureLink W "/home/u/app" false (mkState theClient []))
  = LinkNumber 0
  /\ exitCodeOf W theClient = 0
  /\ dispatched (traceOf W theClient) = false
  /\ wrote (traceOf W theClient) = false.
Proof.
  exact (abort_exits_zero
           (world (Some plainArgs) not_linked not_linked allSucceed)
           theClient plainArgs eq_refl eq_refl eq_refl eq_refl).
Defined.

Lemma linked_returns_without_setup_scenario :
  let W := world (Some plainArgs) (linked teamOrg "prj_P1")
                 (error 9) allSucceed in
  ensureLink W "/home/u/app" false (mkState theClient [])
  = (IsLink teamOrg "prj_P1",
     mkState theClient
       [CallGetLinkedProject "/home/u/app" (linked teamOrg "prj_P1")])
  /\ setupInvoked
       (trace (snd (ensureLink W "/home/u/app" false (mkState theClient []))))
     = false.
Proof.
  exact (linked_returns_without_setup
           (world (Some plainArgs) (linked teamOrg "prj_P1") (error 9)
                  allSucceed)
           "/home/u/app" false (mkState theClient []) teamOrg "prj_P1"
           eq_refl).
Defined.

Lemma link_error_passes_through_scenario :
  exitCodeOf (world (Some plainArgs) (error 5) not_linked allSucceed)
             theClient = 5
  /\ exitCodeOf (world (Some plainArgs) not_linked (error 6) allSucceed)
                theClient = 6.
Proof.
  split.
  - exact (proj1 (proj2 (link_error_passes_through
             (world (Some plainArgs) (error 5) not_linked allSucceed)
             theClient plainArgs 5 eq_refl eq_refl
             (LookupFails
                (world (Some plainArgs) (error 5) not_linked allSucceed)
                theClient "/home/u/app" false 5 eq_refl)))).
  - exact (proj1 (proj2 (link_error_passes_through
             (world (Some plainArgs) not_linked (error 6) allSucceed)
             theClient plainArgs 6 eq_refl eq_refl
             (SetupFails
                (world (Some plainArgs) not_linked (error 6) allSucceed)
                theClient "/home/u/app" false 6 eq_refl eq_refl)))).
Defined.

Lemma four_sync_tasks_custom :
  syncTasks
    (trace (snd (pullAllEnvFiles
                   (world (Some customArgs) (linked teamOrg "prj_P1")
                          not_linked allSucceed)
                   "custom" "prj_P1" customArgs "/home/u/app"
                   (mkState theClient []))))
  = [(Development, ["/home/u/app/custom"]);
     (Development, ["/home/u/app/.vercel/custom.development.local"]);
     (Preview, ["/home/u/app/.vercel/custom.preview.local"]);
     (Production, ["/home/u/app/.vercel/custom.production.local"])].
Proof.
  exact (proj2 (four_sync_tasks
                  (world (Some customArgs) (linked teamOrg "prj_P1")
                         not_linked allSucceed)
                  "custom" "prj_P1" customArgs "/home/u/app" theClient)
               eq_refl eq_refl).
Defined.

Lemma team_set_once_before_sync_scenario :
  let W := world (Some plainArgs) not_linked (linked teamOrg "prj_P1")
                 allSucceed in
  exists before after,
    traceOf W theClient
    = (before ++ SetCurrentTeam (Some "team_T1") :: after)%list
    /\ existsb isSetTeam before = false
    /\ dispatched before = false
    /\ existsb isSetTeam after = false
    /\ syncTeams after
       = [Some "team_T1"; Some "team_T1"; Some "team_T1"; Some "team_T1"]
    /\ currentTeam (client (snd (run W theClient))) = Some "team_T1".
Proof.
  exact (team_set_once_before_sync
           (world (Some plainArgs) not_linked (linked teamOrg "prj_P1")
                  allSucceed)
           theClient plainArgs teamOrg "prj_P1" eq_refl eq_refl eq_refl).
Defined.

Lemma arguments_stop_the_run_scenario :
  exitCodeOf (world (Some helpArgs) (linked teamOrg "prj_P1") not_linked
                    allSucceed) theClient = 2
  /\ exitCodeOf (world None (linked teamOrg "prj_P1") not_linked allSucceed)
                theClient = 1.
Proof.
  split.
  - exact (f_equal fst (proj1 (arguments_stop_the_run
             (world (Some helpArgs) (linked teamOrg "prj_P1") not_linked
                    allSucceed)
             theClient 2 CallHelp (HelpRequested helpArgs eq_refl)))).
  - exact (f_equal fst (proj1 (arguments_stop_the_run
             (world None (linked teamOrg "prj_P1") not_linked allSucceed)
             theClient 1 CallHandleError ParseFailed))).
Defined.

Lemma env_default_only_when_absent_scenario :
  syncTasks
    (traceOf (world (Some emptyEnvArgs) (linked userOrg "prj_P1") not_linked
                    allSucceed) theClient)
  = [(Development, ["/home/u/app"]);
     (Development, ["/home/u/app/.vercel/.development.local"]);
     (Preview, ["/home/u/app/.vercel/.preview.local"]);
     (Production, ["/home/u/app/.vercel/.production.local"])].
Proof.
  exact (proj2 (proj2 (proj2 (proj2 (env_default_only_when_absent
           (world (Some emptyEnvArgs) (linked userOrg "prj_P1") not_linked
                  allSucceed)
           theClient emptyEnvArgs userOrg "prj_P1" eq_refl eq_refl eq_refl))
           eq_refl)) eq_refl).
Defined.

End PullProps.

(* ------------------------------------------------------------------ *)
(** ** More facts about [join] *)

Module JoinFacts.
Import Str StrFacts Path PathFacts.

(** [normalize] looks at a path only through its being empty, absolute,
    ended by a separator, and through its result. *)
Lemma normalize_ext (p q : string) :
  p <> "" -> q <> "" ->
  starts_with_sep p = starts_with_sep q ->
  ends_with_sep p = ends_with_sep q ->
  (forall allow,
     normalizeSegments allow (split p) = normalizeSegments allow (split q)) ->
  normalize p = normalize q.
Proof.
  intros Hp Hq Hs He Hr. unfold normalize, normalizeString.
  destruct (String.eqb_spec p ""); [ contradiction | ].
  destruct (String.eqb_spec q ""); [ contradiction | ].
  rewrite Hs, He, Hr. reflexivity.
Qed.

Lemma normalizeSegments_app (allow : bool) (a b : list string) :
  normalizeSegments allow (a ++ b)
  = fold_left (step allow) b (normalizeSegments allow a).
Proof. apply fold_left_app. Qed.

Lemma nonempty_append_r (a b : string) : b <> "" -> nonempty (a ++ b) = true.
Proof.
  intros Hb. destruct a; [ | reflexivity ].
  destruct b; [ congruence | reflexivity ].
Qed.

Lemma append_not_empty_r (a b : string) : b <> "" -> a ++ b <> "".
Proof.
  intros Hb. destruct a; [ exact Hb | discriminate ].
Qed.

(** What ends a path that ends with text that is not empty. *)
Lemma ends_with_sep_tail (a b : string) :
  b <> "" -> ends_with_sep (a ++ b) = ends_with_sep b.
Proof. apply ends_with_sep_append. Qed.

(** A suffixed path whose root starts with [../] is the path of the
    rest of the root in the working directory itself. *)
Lemma join_parent_suffixed (cwd r sfx : string) :
  cwd <> "" -> sfx <> "" ->
  join [cwd; ".vercel"; ("../" ++ r) ++ sfx] = join [cwd; r ++ sfx].
Proof.
  intros Hc Hs.
  assert (Hrs : r ++ sfx <> "") by (apply append_not_empty_r, Hs).
  unfold join. cbn [filter].
  assert (Hn : nonempty cwd = true) by (destruct cwd; [ congruence | reflexivity ]).
  rewrite Hn, (nonempty_append_r r sfx Hs).
  change (nonempty ".vercel") with true.
  change (nonempty (("../" ++ r) ++ sfx)) with true.
  cbv iota. cbn [String.concat].
  change (("../" ++ r) ++ sfx) with (".." ++ String "/" (r ++ sfx)).
  change (cwd ++ "/" ++ ".vercel" ++ "/" ++ ".." ++ String "/" (r ++ sfx))
    with (cwd ++ String "/" (".vercel" ++ String "/"
                               (".." ++ String "/" (r ++ sfx)))).
  change (cwd ++ "/" ++ r ++ sfx) with (cwd ++ String "/" (r ++ sfx)).
  apply normalize_ext.
  - apply append_not_empty_r. discriminate.
  - apply append_not_empty_r. discriminate.
  - rewrite !starts_with_sep_append by assumption. reflexivity.
  - rewrite !ends_with_sep_tail by discriminate.
    change (String "/" (".vercel" ++ String "/" (".." ++ String "/" (r ++ sfx))))
      with ("/.vercel/../" ++ (r ++ sfx)).
    change (String "/" (r ++ sfx)) with ("/" ++ (r ++ sfx)).
    rewrite !ends_with_sep_tail by assumption. reflexivity.
  - intros allow. rewrite !split_append_sep.
    rewrite !normalizeSegments_app.
    change (split ".vercel") with [".vercel"]. change (split "..") with [".."].
    cbn [app fold_left].
    rewrite (plain_step allow _ ".vercel") by reflexivity.
    reflexivity.
Qed.

(** A separator at the head of the root changes no destination. *)
Lemma join_legacy_leading_sep (cwd r : string) :
  cwd <> "" -> r <> "" ->
  join [cwd; "/" ++ r] = join [cwd; r].
Proof.
  intros Hc Hr. unfold join. cbn [filter].
  assert (Hn : nonempty cwd = true) by (destruct cwd; [ congruence | reflexivity ]).
  assert (Hn' : nonempty r = true) by (destruct r; [ congruence | reflexivity ]).
  rewrite Hn, Hn'. change (nonempty ("/" ++ r)) with true.
  cbv iota. cbn [String.concat].
  change (cwd ++ "/" ++ "/" ++ r) with (cwd ++ String "/" (String "/" r)).
  change (cwd ++ "/" ++ r) with (cwd ++ String "/" r).
  apply normalize_ext.
  - apply append_not_empty_r. discriminate.
  - apply append_not_empty_r. discriminate.
  - rewrite !starts_with_sep_append by assumption. reflexivity.
  - rewrite !ends_with_sep_tail by discriminate.
    change (String "/" (String "/" r)) with ("//" ++ r).
    change (String "/" r) with ("/" ++ r).
    rewrite !ends_with_sep_tail by assumption. reflexivity.
  - intros allow. rewrite !split_append_sep.
    change (split (String "/" r)) with ("" :: split r).
    rewrite !normalizeSegments_app. reflexivity.
Qed.

Lemma join_suffixed_leading_sep (cwd r sfx : string) :
  sfx <> "" ->
  join [cwd; ".vercel"; ("/" ++ r) ++ sfx] = join [cwd; ".vercel"; r ++ sfx].
Proof.
  intros Hs.
  assert (Hrs : r ++ sfx <> "") by (apply append_not_empty_r, Hs).
  unfold join. cbn [filter].
  rewrite (nonempty_append_r r sfx Hs).
  change (nonempty ".vercel") with true.
  change (nonempty (("/" ++ r) ++ sfx)) with true.
  change (("/" ++ r) ++ sfx) with (String "/" (r ++ sfx)).
  assert (H : normalize (".vercel" ++ String "/" (String "/" (r ++ sfx)))
              = normalize (".vercel" ++ String "/" (r ++ sfx))).
  { apply normalize_ext; try discriminate.
    - reflexivity.
    - rewrite !ends_with_sep_tail by discriminate.
      change (String "/" (String "/" (r ++ sfx))) with ("//" ++ (r ++ sfx)).
      change (String "/" (r ++ sfx)) with ("/" ++ (r ++ sfx)).
      rewrite !ends_with_sep_tail by assumption. reflexivity.
    - intros allow. rewrite !split_append_sep.
      change (split (String "/" (r ++ sfx))) with ("" :: split (r ++ sfx)).
      rewrite !normalizeSegments_app. reflexivity. }
  destruct cwd as [|c cwd].
  - cbn [nonempty String.eqb negb]. cbv iota. cbn [String.concat].
    exact H.
  - change (nonempty (String c cwd)) with true. cbv iota.
    cbn [String.concat].
    change (String c cwd ++ "/" ++ ".vercel" ++ "/" ++ String "/" (r ++ sfx))
      with (String c cwd
            ++ String "/" (".vercel" ++ String "/" (String "/" (r ++ sfx)))).
    change (String c cwd ++ "/" ++ ".vercel" ++ "/" ++ r ++ sfx)
      with (String c cwd ++ String "/" (".vercel" ++ String "/" (r ++ sfx))).
    apply normalize_ext; try discriminate.
    + reflexivity.
    + rewrite !ends_with_sep_tail by discriminate.
      change (String "/" (".vercel" ++ String "/" (String "/" (r ++ sfx))))
        with ("/.vercel//" ++ (r ++ sfx)).
      change (String "/" (".vercel" ++ String "/" (r ++ sfx)))
        with ("/.vercel/" ++ (r ++ sfx)).
      rewrite !ends_with_sep_tail by assumption. reflexivity.
    + intros allow. rewrite !split_append_sep.
      change (split (String "/" (r ++ sfx))) with ("" :: split (r ++ sfx)).
      rewrite !normalizeSegments_app.
      change (split ".vercel") with [".vercel"]. reflexivity.
Qed.

(** A path whose last segment is not empty does not end with a
    separator. *)
Lemma ends_from_split (path : string) (init : list string) (lst : string) :
  split path = (init ++ [lst])%list -> lst <> "" ->
  ends_with_sep path = false.
Proof.
  intros Hs Hl.
  pose proof (split_segments_no_sep path) as Hsep. rewrite Hs in Hsep.
  apply Forall_app in Hsep as [_ Hsep]. inversion Hsep as [|? ? Hn _]; subst.
  rewrite <- (concat_split path), Hs.
  destruct init as [|i init]; [ apply no_sep_ends, Hn | ].
  rewrite concat_app by discriminate.
  rewrite ends_with_sep_tail by discriminate.
  change (String "/" (String.concat "/" [lst])) with ("/" ++ lst).
  rewrite ends_with_sep_tail by exact Hl. apply no_sep_ends, Hn.
Qed.

Lemma concat_snoc_suffix (l : list string) (x sfx : string) :
  exists q, String.concat "/" (l ++ [(x ++ sfx)%string]) = q ++ sfx.
Proof.
  destruct l as [|y l].
  - exists x. reflexivity.
  - exists (String.concat "/" (y :: l) ++ String "/" x).
    rewrite concat_app by discriminate.
    change (String "/" (String.concat "/" [(x ++ sfx)%string]))
      with (String "/" x ++ sfx).
    rewrite append_assoc. reflexivity.
Qed.

(** A suffixed path ends with its suffix, whatever the working directory
    and the root. *)
Lemma suffixed_ends_with_suffix (cwd root sfx : string) :
  no_sep sfx = true -> 3 <= String.length sfx ->
  exists pre, join [cwd; ".vercel"; root ++ sfx] = pre ++ sfx.
Proof.
  intros Hsep Hlen.
  assert (Hne : sfx <> "") by (intros ->; cbn in Hlen; lia).
  destruct (split_last root) as (init & lst & Hroot).
  destruct (join_suffixed cwd root sfx init lst Hsep Hne Hroot)
    as (j & N & J & S).
  assert (Hend : ends_with_sep j = false).
  { change (dirSegments cwd ++ ".vercel" :: init ++ [(lst ++ sfx)%string])%list
      with (dirSegments cwd ++ (".vercel" :: init) ++ [(lst ++ sfx)%string])%list
      in S.
    rewrite app_assoc in S.
    apply (ends_from_split j _ _ S), append_not_empty_r, Hne. }
  rewrite J. unfold normalize, normalizeString.
  destruct (String.eqb_spec j ""); [ contradiction | ].
  rewrite Hend, S.
  change (dirSegments cwd ++ ".vercel" :: init ++ [(lst ++ sfx)%string])%list
    with (dirSegments cwd ++ (".vercel" :: init) ++ [(lst ++ sfx)%string])%list.
  rewrite app_assoc, normalizeSegments_snoc.
  rewrite (plain_step _ _ (lst ++ sfx))
    by (apply long_plain; rewrite length_append; lia).
  cbn [rev].
  destruct (concat_snoc_suffix
              (rev (fold_left (step (negb (starts_with_sep j)))
                      (dirSegments cwd ++ ".vercel" :: init) []))
              lst sfx) as (q & Hq).
  rewrite Hq.
  destruct (String.eqb_spec (q ++ sfx) "") as [E | _].
  { exfalso. exact (append_not_empty_r q sfx Hne E). }
  destruct (starts_with_sep j).
  - exists ("/" ++ q). rewrite append_assoc. reflexivity.
  - exists q. reflexivity.
Qed.

End JoinFacts.

(* ------------------------------------------------------------------ *)
(** ** More properties of a run *)

Module RunFacts.
Import Pull Observe PullProps.
Local Open Scope Z_scope.

Section Run.
Context {Project : Type}.
Variable W : Collaborators Project.

(** X1.  [setupAndLink] is called in a run exactly when the arguments
    are read without the help flag and the lookup says [not_linked]; an
    error of the lookup does not lead to a setup.  It is then called
    once, for the working directory of the run, with [autoConfirm] the
    value of [--yes], and the fixed emoji and message. *)
Theorem setup_called_iff_not_linked (c : Client) :
  (setupInvoked (traceOf W c) = true <->
   exists a,
     getArgs W (skipn 2 (argv c)) = Some a
     /\ truthy (arg_help a) = false
     /\ getLinkedProject W c (main_cwd W a) = not_linked)
  /\ (filter isSetup (traceOf W c) = []
      \/ exists a,
           getArgs W (skipn 2 (argv c)) = Some a
           /\ filter isSetup (traceOf W c)
              = [CallSetupAndLink (main_cwd W a) (main_yes a) "link" "Set up"
                   (setupAndLink W c (main_cwd W a) (main_yes a))]).
Proof.
  split_run W c; try sync_cases.
  all: cbv [setupInvoked]; cbn [existsb filter isSetup orb].
  all: split; [ split | ].
  all: try discriminate.
  all: try (intros (a' & Ea & Eh & El); congruence).
  all: try (left; reflexivity).
  all: try (intros _; exists a; auto).
  all: try (intros _; reflexivity).
  all: right; exists a; split; [ reflexivity | rewrite Hsetup; reflexivity ].
Qed.

(** X2.  A run makes all four downloads or none: never one, two or
    three, whatever the downloads return. *)
Theorem downloads_all_or_none (c : Client) :
  length (syncResults (traceOf W c))
  = if dispatched (traceOf W c) then 4%nat else 0%nat.
Proof.
  split_run W c; try sync_cases; reflexivity.
Qed.

(** X3.  A run that wrote the settings exits with 0 and made the
    downloads; a run that made the downloads and exits with 0 wrote the
    settings.  So after downloads, exit code 0 and written settings go
    together: a failed download never shows as success. *)
Theorem zero_exit_after_downloads_iff_written (c : Client) :
  (wrote (traceOf W c) = true ->
   exitCodeOf W c = 0 /\ dispatched (traceOf W c) = true)
  /\ (dispatched (traceOf W c) = true -> exitCodeOf W c = 0 ->
      wrote (traceOf W c) = true).
Proof.
  split_run W c; try sync_cases.
  all: cbv [wrote dispatched]; cbn [existsb isWrite isEnvPull orb].
  all: split; intros; try discriminate; try contradiction; auto.
Qed.

(** X4.  In a run whose link is resolved, every download is made for
    the project of that link with the arguments of the run, and a write
    of the settings is made for the working directory of the run and
    the project and organisation of that link. *)
Theorem calls_made_for_resolved_link (c : Client) (a : Argv) (org : Org)
    (project : Project) :
  getArgs W (skipn 2 (argv c)) = Some a ->
  truthy (arg_help a) = false ->
  fst (ensureLink W (main_cwd W a) (main_yes a) (mkState c []))
  = IsLink org project ->
  Forall (madeFor (main_cwd W a) a org project) (traceOf W c).
Proof.
  intros Ha Hh. unfold_run. rewrite Ha; tidy. rewrite Hh; tidy.
  destruct (getLinkedProject W c (main_cwd W a)) as [o p | | code]; tidy.
  - intros [= -> ->]. sync_cases; repeat constructor.
  - destruct (setupAndLink W c (main_cwd W a) (main_yes a))
      as [o p | | code]; tidy; try discriminate.
    intros [= -> ->]. sync_cases; repeat constructor.
  - discriminate.
Qed.

(** X5.  The command's own assignment to the shared client is made only
    in runs that go on to the downloads: a run that makes no download
    (help, a parse failure, an abort, a link error) ends with the client
    it started with.  No run changes the command line of the client. *)
Theorem no_download_leaves_client (c : Client) :
  (dispatched (traceOf W c) = false -> client (snd (run W c)) = c)
  /\ argv (client (snd (run W c))) = argv c.
Proof.
  split_run W c; try sync_cases.
  all: cbv [dispatched]; cbn [existsb isEnvPull orb].
  all: split; intros; try discriminate; reflexivity.
Qed.


(** X7.  When a run writes the settings, the write comes once, after
    the four downloads and right after the last of them, and the
    confirmation is printed last: nothing is written while a download
    is still to be made. *)
Theorem write_follows_the_downloads (c : Client) :
  wrote (traceOf W c) = true ->
  exists before d1 d2 d3 d4 w,
    traceOf W c = (before ++ [d1; d2; d3; d4; w; CallPrint])%list
    /\ dispatched before = false
    /\ wrote before = false
    /\ isEnvPull d1 = true /\ isEnvPull d2 = true
    /\ isEnvPull d3 = true /\ isEnvPull d4 = true
    /\ isWrite w = true.
Proof.
  split_run W c; try sync_cases.
  all: cbv [wrote]; cbn [existsb isWrite orb]; try discriminate.
  all: intros _.
  - exists [CallGetArgs (skipn 2 (argv c)) (Some a);
            CallGetLinkedProject (main_cwd W a) (linked org project);
            SetCurrentTeam (teamOf org)].
    do 5 eexists. split; [ reflexivity | ]. repeat split; reflexivity.
  - exists [CallGetArgs (skipn 2 (argv c)) (Some a);
            CallGetLinkedProject (main_cwd W a) not_linked;
            CallSetupAndLink (main_cwd W a) (main_yes a) "link" "Set up"
                             (linked org project);
            SetCurrentTeam (teamOf org)].
    do 5 eexists. split; [ reflexivity | ]. repeat split; reflexivity.
Qed.

(** X8.  In a run whose link is resolved, whose working directory is in
    normal form and whose root is a plain name (as the default [".env"]
    is), the four downloads go to [cwd/root],
    [cwd/.vercel/root.development.local], [cwd/.vercel/root.preview.local]
    and [cwd/.vercel/root.production.local], with the working directory
    and the root that [main] takes from the arguments. *)
Theorem run_destinations (c : Client) (a : Argv) (org : Org)
    (project : Project) :
  getArgs W (skipn 2 (argv c)) = Some a ->
  truthy (arg_help a) = false ->
  fst (ensureLink W (main_cwd W a) (main_yes a) (mkState c []))
  = IsLink org project ->
  Path.cleanDir (main_cwd W a) = true ->
  Path.cleanName (main_env a) = true ->
  syncTasks (traceOf W c)
  = [(Development, [main_cwd W a ++ "/" ++ main_env a]);
     (Development,
       [main_cwd W a ++ "/.vercel/" ++ main_env a ++ ".development.local"]);
     (Preview,
       [main_cwd W a ++ "/.vercel/" ++ main_env a ++ ".preview.local"]);
     (Production,
       [main_cwd W a ++ "/.vercel/" ++ main_env a ++ ".production.local"])].
Proof.
  intros Ha Hh Hl Hc Hr.
  rewrite (run_syncTasks W c a org project Ha Hh Hl), pullAllEnvFiles_run.
  cbn [snd trace app]. cbv [syncTasks]. cbn [flat_map app].
  assert (Hsep : Str.no_sep (main_env a) = true).
  { unfold Path.cleanName in Hr. apply andb_prop in Hr. tauto. }
  rewrite (PathFacts.join_clean (main_cwd W a) [main_env a])
    by (cbn [forallb]; rewrite ?Hr; auto).
  rewrite !(PathFacts.join_clean (main_cwd W a) [".vercel"; _])
    by (cbn [forallb]; rewrite ?PathFacts.cleanName_suffixed; auto;
        cbn; lia).
  reflexivity.
Qed.

(** X9.  Whatever the working directory and the root, the three
    suffixed destinations of [pullAllEnvFiles] end with
    [.development.local], [.preview.local] and [.production.local]: no
    root makes [join] drop or change the suffix. *)
Theorem suffixed_destinations_keep_suffix (root : string) (project : Project)
    (args : Argv) (cwd : string) (c : Client) :
  exists legacy p1 p2 p3,
    syncTasks
      (trace (snd (pullAllEnvFiles W root project args cwd (mkState c []))))
    = [(Development, [legacy]);
       (Development, [p1 ++ ".development.local"]);
       (Preview, [p2 ++ ".preview.local"]);
       (Production, [p3 ++ ".production.local"])].
Proof.
  rewrite pullAllEnvFiles_run.
  cbn [snd trace app]. cbv [syncTasks]. cbn [flat_map app].
  destruct (JoinFacts.suffixed_ends_with_suffix cwd root ".development.local"
              eq_refl ltac:(cbn; lia)) as (p1 & E1).
  destruct (JoinFacts.suffixed_ends_with_suffix cwd root ".preview.local"
              eq_refl ltac:(cbn; lia)) as (p2 & E2).
  destruct (JoinFacts.suffixed_ends_with_suffix cwd root ".production.local"
              eq_refl ltac:(cbn; lia)) as (p3 & E3).
  exists (Path.join [cwd; root]), p1, p2, p3.
  rewrite E1, E2, E3. reflexivity.
Qed.

(** X10.  A root that starts with [../] takes the three suffixed files
    out of [.vercel]: with root [../r] they are the files
    [r.development.local], [r.preview.local] and [r.production.local] of
    the working directory itself.  When the working directory is in
    normal form and [r] is a plain name they are, letter for letter,
    [cwd/r.development.local] and so on. *)
Theorem parent_root_leaves_vercel (r : string) (project : Project)
    (args : Argv) (cwd : string) (c : Client) :
  cwd <> ""%string ->
  let tasks :=
    syncTasks
      (trace (snd (pullAllEnvFiles W ("../" ++ r) project args cwd
                     (mkState c []))))
  in
  tasks
  = [(Development, [Path.join [cwd; "../" ++ r]]);
     (Development, [Path.join [cwd; r ++ ".development.local"]]);
     (Preview, [Path.join [cwd; r ++ ".preview.local"]]);
     (Production, [Path.join [cwd; r ++ ".production.local"]])]
  /\ (Path.cleanDir cwd = true -> Path.cleanName r = true ->
      tasks
      = [(Development, [Path.join [cwd; "../" ++ r]]);
         (Development, [cwd ++ "/" ++ r ++ ".development.local"]);
         (Preview, [cwd ++ "/" ++ r ++ ".preview.local"]);
         (Production, [cwd ++ "/" ++ r ++ ".production.local"])]).
Proof.
  intros Hc tasks. subst tasks. rewrite pullAllEnvFiles_run.
  cbn [snd trace app]. cbv [syncTasks]. cbn [flat_map app].
  rewrite !(JoinFacts.join_parent_suffixed cwd r _ Hc) by discriminate.
  split; [ reflexivity | ].
  intros Hd Hr.
  assert (Hsep : Str.no_sep r = true).
  { unfold Path.cleanName in Hr. apply andb_prop in Hr. tauto. }
  rewrite !(PathFacts.join_clean cwd [(r ++ _)%string])
    by (cbn [forallb]; rewrite ?PathFacts.cleanName_suffixed; auto;
        cbn; lia).
  reflexivity.
Qed.

(** X11.  A separator at the head of the root changes nothing: with a
    working directory and a root that are not empty, the four downloads
    for the root [/r] are those for the root [r].  An absolute [--env]
    is read from the working directory, not from the root of the file
    system. *)
Theorem leading_separator_changes_nothing (r : string) (project : Project)
    (args : Argv) (cwd : string) (c : Client) :
  cwd <> ""%string -> r <> ""%string ->
  syncTasks
    (trace (snd (pullAllEnvFiles W ("/" ++ r) project args cwd
                   (mkState c []))))
  = syncTasks
      (trace (snd (pullAllEnvFiles W r project args cwd (mkState c [])))).
Proof.
  intros Hc Hr. rewrite !pullAllEnvFiles_run.
  cbn [snd trace app]. cbv [syncTasks]. cbn [flat_map app].
  rewrite (JoinFacts.join_legacy_leading_sep cwd r Hc Hr).
  rewrite !(JoinFacts.join_suffixed_leading_sep cwd r) by discriminate.
  reflexivity.
Qed.

Lemma aggregate_in (r1 r2 r3 r4 : Z) :
  aggregate r1 r2 r3 r4 <> 0 ->
  In (aggregate r1 r2 r3 r4) [r1; r2; r3; r4].
Proof.
  unfold aggregate, or_number. cbn [In].
  destruct (Z.eqb_spec r1 0) as [E1 | E1].
  - destruct (Z.eqb_spec r2 0) as [E2 | E2].
    + destruct (Z.eqb_spec r3 0) as [E3 | E3].
      * destruct (Z.eqb_spec r4 0); [ congruence | auto ].
      * destruct (Z.eqb_spec r3 0); [ contradiction | auto ].
    + destruct (Z.eqb_spec r2 0); [ contradiction | ].
      destruct (Z.eqb_spec r2 0); [ contradiction | auto ].
  - destruct (Z.eqb_spec r1 0); [ contradiction | ].
    destruct (Z.eqb_spec r1 0); [ contradiction | ].
    destruct (Z.eqb_spec r1 0); [ contradiction | auto ].
Qed.

(** X12.  An exit code that is not 0 always has its cause in the record
    of the run: it is 2 and the usage was printed, or 1 and an error of
    the arguments was reported, or it is the exit code of an error
    returned by the lookup or the setup, or the exit code of one of the
    downloads.  The command makes up no exit code of its own besides 0, 1
    and 2. *)
Theorem exit_code_has_a_cause (c : Client) :
  exitCodeOf W c = 0
  \/ (exitCodeOf W c = 2 /\ In CallHelp (traceOf W c))
  \/ (exitCodeOf W c = 1 /\ In CallHandleError (traceOf W c))
  \/ In (exitCodeOf W c) (linkErrors (traceOf W c))
  \/ In (exitCodeOf W c) (syncResults (traceOf W c)).
Proof.
  split_run W c; try sync_cases.
  all: cbv [linkErrors syncResults]; cbn [flat_map app In].
  all: try (left; reflexivity).
  all: try (right; left; split; [ reflexivity | auto ]; fail).
  all: try (right; right; left; split; [ reflexivity | auto ]; fail).
  all: try (right; right; right; left; auto; fail).
  all: right; right; right; right; apply aggregate_in; assumption.
Qed.

End Run.

(** *** These properties on concrete runs *)

Section Scenarios.
Import Examples.

Lemma zero_exit_after_downloads_iff_written_scenario :
  let W := world (Some plainArgs) (linked teamOrg "prj_P1") not_linked
                 allSucceed in
  exitCodeOf W theClient = 0 /\ dispatched (traceOf W theClient) = true.
Proof.
  exact (proj1 (zero_exit_after_downloads_iff_written
                  (world (Some plainArgs) (linked teamOrg "prj_P1")
                         not_linked allSucceed) theClient) eq_refl).
Defined.

Lemma calls_made_for_resolved_link_scenario :
  let W := world (Some plainArgs) not_linked (linked teamOrg "prj_P1")
                 allSucceed in
  Forall (madeFor "/home/u/app" plainArgs teamOrg "prj_P1")
         (traceOf W theClient).
Proof.
  exact (calls_made_for_resolved_link
           (world (Some plainArgs) not_linked (linked teamOrg "prj_P1")
                  allSucceed)
           theClient plainArgs teamOrg "prj_P1" eq_refl eq_refl eq_refl).
Defined.

Lemma no_download_leaves_client_scenario :
  client (snd (run (world (Some plainArgs) not_linked not_linked allSucceed)
                   theClient)) = theClient.
Proof.
  exact (proj1 (no_download_leaves_client
                  (world (Some plainArgs) not_linked not_linked allSucceed)
                  theClient) eq_refl).
Defined.


Lemma write_follows_the_downloads_scenario :
  let W := world (Some plainArgs) (linked userOrg "prj_P1") not_linked
                 allSucceed in
  exists before d1 d2 d3 d4 w,
    traceOf W theClient = (before ++ [d1; d2; d3; d4; w; CallPrint])%list
    /\ dispatched before = false
    /\ wrote before = false
    /\ isEnvPull d1 = true /\ isEnvPull d2 = true
    /\ isEnvPull d3 = true /\ isEnvPull d4 = true
    /\ isWrite w = true.
Proof.
  exact (write_follows_the_downloads
           (world (Some plainArgs) (linked userOrg "prj_P1") not_linked
                  allSucceed) theClient eq_refl).
Defined.

Lemma run_destinations_scenario :
  syncTasks
    (traceOf (world (Some plainArgs) (linked userOrg "prj_P1") not_linked
                    allSucceed) theClient)
  = [(Development, ["/home/u/app/.env"%string]);
     (Development, ["/home/u/app/.vercel/.env.development.local"%string]);
     (Preview, ["/home/u/app/.vercel/.env.preview.local"%string]);
     (Production, ["/home/u/app/.vercel/.env.production.local"%string])].
Proof.
  exact (run_destinations
           (world (Some plainArgs) (linked userOrg "prj_P1") not_linked
                  allSucceed)
           theClient plainArgs userOrg "prj_P1"
           eq_refl eq_refl eq_refl eq_refl eq_refl).
Defined.

Lemma parent_root_leaves_vercel_scenario :
  syncTasks
    (trace (snd (pullAllEnvFiles
                   (world (Some parentEnvArgs) (linked userOrg "prj_P1")
                          not_linked allSucceed)
                   "../shared" "prj_P1" parentEnvArgs "/home/u/app"
                   (mkState theClient []))))
  = [(Development, ["/home/u/shared"%string]);
     (Development, ["/home/u/app/shared.development.local"%string]);
     (Preview, ["/home/u/app/shared.preview.local"%string]);
     (Production, ["/home/u/app/shared.production.local"%string])].
Proof.
  exact (proj2 (parent_root_leaves_vercel
                  (world (Some parentEnvArgs) (linked userOrg "prj_P1")
                         not_linked allSucceed)
                  "shared" "prj_P1" parentEnvArgs "/home/u/app" theClient
                  ltac:(discriminate))
               eq_refl eq_refl).
Defined.

Lemma leading_separator_changes_nothing_scenario :
  syncTasks
    (trace (snd (pullAllEnvFiles
                   (world (Some plainArgs) (linked userOrg "prj_P1")
                          not_linked allSucceed)
                   "/etc/env" "prj_P1" plainArgs "/home/u/app"
                   (mkState theClient []))))
  = [(Development, ["/home/u/app/etc/env"%string]);
     (Development, ["/home/u/app/.vercel/etc/env.development.local"%string]);
     (Preview, ["/home/u/app/.vercel/etc/env.preview.local"%string]);
     (Production, ["/home/u/app/.vercel/etc/env.production.local"%string])].
Proof.
  exact (leading_separator_changes_nothing
           (world (Some plainArgs) (linked userOrg "prj_P1") not_linked
                  allSucceed)
           "etc/env" "prj_P1" plainArgs "/home/u/app" theClient
           ltac:(discriminate) ltac:(discriminate)).
Defined.

End Scenarios.

End RunFacts.
